(** * remix-stubs: [createRemixStub.tsx]

    A shallow embedding of the test harness in
    [packages/remix-stubs/src/createRemixStub.tsx] together with the
    properties its specification states about it.

    JavaScript objects used as dictionaries ([RouteManifest], [RouteModules])
    are finite maps of own properties together with a prototype; optional
    fields are [option]s; the
    process-wide [window.fetch] slot is a field of an explicit [World]; a
    promise is represented by the way it settles. *)

From Stdlib Require Import ZArith.
From stdpp Require Import gmap strings list fin_maps.

Local Open Scope Z_scope.
Local Open Scope string_scope.
Local Open Scope list_scope.

(** ** JavaScript values that can be thrown *)

(** The part of a [Response] the interceptor looks at. *)
Record Response := {
  status : Z;
  statusText : string;
  body : string;
}.

(** A [catch] clause binds an arbitrary value. *)
#[warnings="-register-all"]
Inductive js_value :=
| JsUndefined
| JsNull
| JsBoolean (b : bool)
| JsNumber (n : Z)
| JsString (s : string)
| JsError (name message : string)
| JsObject (props : list (string * js_value))
| JsResponse (r : Response).

(** [error instanceof Response] *)
Definition instanceof_Response (error : js_value) : bool :=
  match error with
  | JsResponse _ => true
  | _ => false
  end.

(** Property read [o.status] on a plain object (first own property). *)
Definition get_prop (key : string) (v : js_value) : option js_value :=
  match v with
  | JsObject props => (snd ∘ snd) <$> list_find (λ kv, fst kv = key) props
  | JsResponse r => if decide (key = "status") then Some (JsNumber (status r)) else None
  | _ => None
  end.

(** How a promise (or an [await]ed call) ends. *)
Inductive outcome :=
| Resolved (r : Response)
| Rejected (error : js_value)
| Pending.

(** ** Plain objects used as dictionaries

    A [RouteManifest] and a [RouteModules] start as the literal [{}] and
    are filled by [obj[key] = value]. The own properties of such an object
    are a finite map; its prototype is [Object.prototype] ([None]) until
    an assignment to ["__proto__"] runs the setter inherited from
    [Object.prototype], which makes the assigned object the prototype and
    adds no own property. *)

Record js_object (V : Type) := {
  own_props : gmap string V;
  prototype : option V;
}.
Arguments own_props {V} _.
Arguments prototype {V} _.

(** [{}] *)
Definition js_empty {V} : js_object V :=
  {| own_props := ∅; prototype := None |}.

(** [obj[key] = value], for a [value] that is an object. *)
Definition js_assign {V} (key : string) (value : V) (obj : js_object V)
  : js_object V :=
  if decide (key = "__proto__") then
    {| own_props := own_props obj; prototype := Some value |}
  else
    {| own_props := <[key := value]> (own_props obj);
       prototype := prototype obj |}.

(** ** Collaborators supplied by the framework

    The types of the values a route carries, of requests and of route
    data, and [new Request], come from [react], [@remix-run/router] and the
    DOM; the harness treats them as opaque capabilities. *)

Class Framework := {
  ReactNode : Type;
  LoaderFunction : Type;
  ActionFunction : Type;
  LinksFunction : Type;
  MetaFunction : Type;
  Handle : Type;
  CatchBoundaryComponent : Type;
  ErrorBoundaryComponent : Type;
  ShouldReloadFunction : Type;
  RouteData : Type;
  RouteMatch : Type;
  RequestInfo : Type;
  RequestInit : Type;
  Request : Type;
  (** [{}] as a [RouteData] and as a [RequestInit] *)
  empty_RouteData : RouteData;
  empty_RequestInit : RequestInit;
  (** [new Request(input, init)]; the constructor may throw *)
  new_Request : RequestInfo → RequestInit → Request + js_value;
}.

Section Routes.
Context `{F : Framework}.

(** ** Route descriptors *)

(** [BaseMockRouteObject] *)
Record BaseMockRouteObject := {
  caseSensitive : option bool;
  path : string;
  element : option ReactNode;
  loader : option LoaderFunction;
  action : option ActionFunction;
  links : option LinksFunction;
  meta : option MetaFunction;
  handle : option Handle;
  CatchBoundary : option CatchBoundaryComponent;
  ErrorBoundary : option ErrorBoundaryComponent;
  unstable_shouldReload : option ShouldReloadFunction;
}.

(** [MockRouteObject = MockIndexRouteObject | MockNonIndexRouteObject]: an
    index route has no children, a route with children has no [index: true].
    [index_given] records whether [index: false] was written out. *)
#[warnings="-register-all"]
Inductive MockRouteObject :=
| MockIndexRoute (base : BaseMockRouteObject)
| MockNonIndexRoute (base : BaseMockRouteObject) (index_given : bool)
    (children : option (list MockRouteObject)).

Definition route_base (route : MockRouteObject) : BaseMockRouteObject :=
  match route with
  | MockIndexRoute base => base
  | MockNonIndexRoute base _ _ => base
  end.

(** Every node of a route tree, parents before children. *)
Fixpoint route_nodes (route : MockRouteObject) : list MockRouteObject :=
  route ::
  match route with
  | MockIndexRoute _ => []
  | MockNonIndexRoute _ _ children =>
      match children with
      | Some l =>
          (fix go (l : list MockRouteObject) :=
             match l with
             | [] => []
             | c :: l' => route_nodes c ++ go l'
             end) l
      | None => []
      end
  end.

Definition tree_nodes (routes : list MockRouteObject) : list MockRouteObject :=
  routes ≫= route_nodes.

(** [!!x] for an optional function or component: these are objects, hence
    truthy whenever present. *)
Definition truthy {A} (x : option A) : bool :=
  match x with
  | Some _ => true
  | None => false
  end.

(** ** Manifest *)

(** [EntryRoute] *)
Record EntryRoute := {
  er_id : string;
  er_path : string;
  er_hasAction : bool;
  er_hasLoader : bool;
  er_module : string;
  er_hasCatchBoundary : bool;
  er_hasErrorBoundary : bool;
}.

Record ManifestEntry := {
  me_imports : list string;
  me_module : string;
}.

(** [AssetsManifest] *)
Record AssetsManifest := {
  am_routes : js_object EntryRoute;
  am_entry : ManifestEntry;
  am_url : string;
  am_version : string;
}.

(** The object assigned to [manifest[route.path]]. *)
Definition entry_route (route : MockRouteObject) : EntryRoute :=
  let r := route_base route in
  {| er_id := path r;
     er_path := path r;
     er_hasAction := truthy (action r);
     er_hasLoader := truthy (loader r);
     er_module := "";
     er_hasCatchBoundary := truthy (CatchBoundary r);
     er_hasErrorBoundary := truthy (ErrorBoundary r) |}.

Definition createManifest (routes : list MockRouteObject) : AssetsManifest :=
  {| am_routes :=
       foldl (λ manifest route,
                js_assign (path (route_base route)) (entry_route route) manifest)
             js_empty routes;
     am_entry := {| me_imports := []; me_module := "" |};
     am_url := "";
     am_version := "" |}.

(** ** Route modules *)

(** What rendering a module's [default] component yields: [<>{element}</>]. *)
Inductive ReactElement :=
| Fragment (child : option ReactNode).

(** [RouteModule] *)
Record RouteModule := {
  rm_CatchBoundary : option CatchBoundaryComponent;
  rm_ErrorBoundary : option ErrorBoundaryComponent;
  rm_default : unit → ReactElement;
  rm_handle : option Handle;
  rm_links : option LinksFunction;
  rm_meta : option MetaFunction;
  rm_unstable_shouldReload : option ShouldReloadFunction;
}.

(** The object assigned to [modules[route.path]]. *)
Definition route_module (route : MockRouteObject) : RouteModule :=
  let r := route_base route in
  {| rm_CatchBoundary := CatchBoundary r;
     rm_ErrorBoundary := ErrorBoundary r;
     rm_default := λ _, Fragment (element r);
     rm_handle := handle r;
     rm_links := links r;
     rm_meta := meta r;
     rm_unstable_shouldReload := unstable_shouldReload r |}.

Definition createRouteModules (routes : list MockRouteObject)
  : js_object RouteModule :=
  foldl (λ modules route,
           js_assign (path (route_base route)) (route_module route) modules)
        js_empty routes.

End Routes.

(** ** Router collaborators *)

(** [Location] of the [history] package. *)
Record Location := {
  pathname : string;
  search : string;
  hash : string;
  state : js_value;
  key : string;
}.

(** [StaticHandler]: only [queryRoute] is used. *)
Record StaticHandler `{F : Framework} := {
  queryRoute : Request → outcome;
}.

(** [InitialEntry = string | Partial<Location>] *)
Inductive InitialEntry :=
| EntryPath (to : string)
| EntryLocation (to : Location).

(** [matchRoutes] and [unstable_createStaticHandler] of [@remix-run/router],
    and the way the [history] package turns an initial entry into a
    [Location]. [matchRoutes] answers [null] (here [None]) when nothing
    matches; [createStaticHandler] may throw. *)
Class Router `{F : Framework} := {
  matchRoutes : list MockRouteObject → string → option (list RouteMatch);
  createStaticHandler : list MockRouteObject → StaticHandler + js_value;
  entry_location : InitialEntry → Location;
}.

Section Stub.
Context `{R : Router}.

(** ** Context builder *)

(** The [appState] block of an [EntryContext]; [None] stands for [null] in
    the three route ids and for [undefined] in [error] and [catch]. *)
Record AppState := {
  trackBoundaries : bool;
  trackCatchBoundaries : bool;
  catchBoundaryRouteId : option string;
  renderBoundaryRouteId : option string;
  loaderBoundaryRouteId : option string;
  error : option js_value;
  catch : option js_value;
}.

(** [EntryContext] *)
Record EntryContext := {
  actionData : option RouteData;
  appState : AppState;
  matches : option (list RouteMatch);
  routeData : RouteData;
  manifest : AssetsManifest;
  routeModules : js_object RouteModule;
}.

Definition createRemixContext (routes : list MockRouteObject)
    (currentLocation : Location) (initialLoaderData : RouteData)
    (initialActionData : option RouteData) : EntryContext :=
  let matches := matchRoutes routes (pathname currentLocation) in
  {| actionData := initialActionData;
     appState :=
       {| trackBoundaries := true;
          trackCatchBoundaries := true;
          catchBoundaryRouteId := None;
          renderBoundaryRouteId := None;
          loaderBoundaryRouteId := None;
          error := None;
          catch := None |};
     matches := matches;
     routeData := initialLoaderData;
     manifest := createManifest routes;
     routeModules := createRouteModules routes |}.

(** ** Network interceptor *)

(** What the [window.fetch] slot can hold: the function that was there
    before any stub ran, or the closure [monkeyPatchFetch] builds, which
    captures its [handler] and the previous content of the slot. *)
Inductive fetch_fn :=
| NativeFetch (impl : RequestInfo → option RequestInit → outcome)
| PatchedFetch (handler : StaticHandler) (originalFetch : fetch_fn).

(** A call that reached a native fetch, with the arguments it received. *)
Definition NetworkCall : Type := RequestInfo * option RequestInit.

(** Calling the content of the slot as [fetch(input, init)]: how the returned
    promise settles, and the calls that reached the network. The second
    clause is the body of the closure in [monkeyPatchFetch]. *)
Fixpoint call_fetch (f : fetch_fn) (input : RequestInfo)
    (init : option RequestInit) : outcome * list NetworkCall :=
  match f with
  | NativeFetch impl => (impl input init, [(input, init)])
  | PatchedFetch handler originalFetch =>
      let init := default empty_RequestInit init in
      match new_Request input init with
      | inr thrown => (Rejected thrown, [])
      | inl request =>
          match queryRoute handler request with
          | Resolved response => (Resolved response, [])
          | Pending => (Pending, [])
          | Rejected error =>
              match error with
              | JsResponse r =>
                  if bool_decide (status r = 404) || bool_decide (status r = 405)
                  then call_fetch originalFetch input (Some init)
                  else (Rejected error, [])
              | _ => (Rejected error, [])
              end
          end
      end
  end.

(** ** History adapter *)

(** [Action] of the [history] package. *)
Inductive Action := Pop | Push | Replace.

(** [MemoryHistory]: the entries, the index of the current one and the
    action that led to it. *)
Record MemoryHistory := {
  h_entries : list Location;
  h_index : Z;
  h_action : Action;
}.

Record MemoryHistoryOptions := {
  mh_initialEntries : list InitialEntry;
  mh_initialIndex : option Z;
}.

(** Modelled from the spec: [createMemoryHistory] of the [history] package
    is not among the sources. It "accepts an ordered sequence of initial
    locations and an optional starting index (defaulting to the last
    entry)". *)
Definition createMemoryHistory (options : MemoryHistoryOptions) : MemoryHistory :=
  let entries := entry_location <$> mh_initialEntries options in
  let last := Z.of_nat (length entries) - 1 in
  {| h_entries := entries;
     h_index := default last (mh_initialIndex options);
     h_action := Pop |}.

(** Modelled from the spec: the history "exposes the current
    {action, location} pair"; [history.location] is the entry at the index,
    and [None] stands for [undefined] when there is none. *)
Definition h_location (h : MemoryHistory) : option Location :=
  if decide (h_index h < 0) then None
  else h_entries h !! Z.to_nat (h_index h).

(** [Update] of the [history] package: what a listener receives. *)
Record Update := {
  u_action : Action;
  u_location : option Location;
}.

(** ** The stub component *)

(** [RemixStubOptions] *)
Record RemixStubOptions := {
  initialEntries : option (list InitialEntry);
  initialLoaderData : option RouteData;
  initialActionData : option RouteData;
  initialIndex : option Z;
}.

(** What one mounted [RemixStub] keeps between renders: the [useRef] cell,
    the [useReducer] state ([None] before the first render) and whether the
    layout effect has subscribed [dispatch] to the history. *)
Record Hooks := {
  historyRef : option MemoryHistory;
  reducerState : option Update;
  listening : bool;
}.

Definition fresh_hooks : Hooks :=
  {| historyRef := None; reducerState := None; listening := false |}.

(** The props handed to [RemixEntry]. *)
Record RemixEntryProps := {
  re_context : EntryContext;
  re_action : Action;
  re_location : Location;
  re_navigator : MemoryHistory;
}.

(** [monkeyPatchFetch(handler)] as a transformer of the [window.fetch] slot. *)
Definition monkeyPatchFetch (handler : StaticHandler) (window_fetch : fetch_fn)
  : fetch_fn :=
  let originalFetch := window_fetch in
  PatchedFetch handler originalFetch.

(** Reading [.pathname] of [undefined]. *)
Definition TypeError_pathname : js_value :=
  JsError "TypeError" "Cannot read properties of undefined (reading 'pathname')".

(** One render of [RemixStub]: the hooks after the render, the content of
    the [window.fetch] slot after it, and the element returned or the value
    thrown. *)
Definition RemixStub (routes : list MockRouteObject) (props : RemixStubOptions)
    (hooks : Hooks) (window_fetch : fetch_fn)
  : Hooks * fetch_fn * (RemixEntryProps + js_value) :=
  let initialEntries := default [EntryPath "/"] (initialEntries props) in
  let initialLoaderData := default empty_RouteData (initialLoaderData props) in
  let history :=
    match historyRef hooks with
    | None =>
        createMemoryHistory
          {| mh_initialEntries := initialEntries;
             mh_initialIndex := initialIndex props |}
    | Some current => current
    end in
  let state :=
    match reducerState hooks with
    | None => {| u_action := h_action history; u_location := h_location history |}
    | Some state => state
    end in
  let hooks :=
    {| historyRef := Some history;
       reducerState := Some state;
       listening := listening hooks |} in
  match u_location state with
  | None => (hooks, window_fetch, inr TypeError_pathname)
  | Some location =>
      let remixContext :=
        createRemixContext routes location initialLoaderData
          (initialActionData props) in
      match createStaticHandler routes with
      | inr thrown => (hooks, window_fetch, inr thrown)
      | inl handler =>
          (hooks, monkeyPatchFetch handler window_fetch,
           inl {| re_context := remixContext;
                  re_action := u_action state;
                  re_location := location;
                  re_navigator := history |})
      end
  end.

(** ** The process and its stubs *)

(** A mounted stub: the route tree its component was created from
    ([createRemixStub(routes)]), its current props and its hooks. *)
Record Instance := {
  i_routes : list MockRouteObject;
  i_props : RemixStubOptions;
  i_hooks : Hooks;
}.

(** The process-wide [window.fetch] slot and the stubs mounted in it. *)
Record World := {
  window_fetch : fetch_fn;
  stubs : gmap nat Instance;
}.

(** What can happen to a stub. The navigation operations of the history
    ([push], [replace], [go]) belong to the [history] package: a [Navigate]
    event carries the history as the operation leaves it. *)
Inductive Event :=
| Mount (id : nat) (routes : list MockRouteObject) (props : RemixStubOptions)
| Rerender (id : nat) (props : RemixStubOptions)
| Navigate (id : nat) (next : MemoryHistory)
| Unmount (id : nat).

(** Render an instance and commit: a render that throws leaves the tree
    without the instance; after a render that returns, the layout effect
    has run [history.listen(dispatch)]. *)
Definition render_instance (id : nat) (inst : Instance) (w : World) : World :=
  match RemixStub (i_routes inst) (i_props inst) (i_hooks inst) (window_fetch w) with
  | (hooks, fetch, inl _) =>
      let hooks :=
        {| historyRef := historyRef hooks;
           reducerState := reducerState hooks;
           listening := true |} in
      {| window_fetch := fetch;
         stubs := <[id := {| i_routes := i_routes inst;
                             i_props := i_props inst;
                             i_hooks := hooks |}]> (stubs w) |}
  | (_, fetch, inr _) =>
      {| window_fetch := fetch; stubs := delete id (stubs w) |}
  end.

Definition step (w : World) (ev : Event) : World :=
  match ev with
  | Mount id routes props =>
      match stubs w !! id with
      | Some _ => w
      | None =>
          render_instance id
            {| i_routes := routes; i_props := props; i_hooks := fresh_hooks |} w
      end
  | Rerender id props =>
      match stubs w !! id with
      | None => w
      | Some inst =>
          render_instance id
            {| i_routes := i_routes inst; i_props := props;
               i_hooks := i_hooks inst |} w
      end
  | Navigate id next =>
      match stubs w !! id with
      | None => w
      | Some inst =>
          match historyRef (i_hooks inst) with
          | None => w
          | Some _ =>
              let history := next in
              let update :=
                {| u_action := h_action history;
                   u_location := h_location history |} in
              if listening (i_hooks inst) then
                (* the listener is [dispatch]: the reducer keeps the update
                   and the component renders again *)
                render_instance id
                  {| i_routes := i_routes inst;
                     i_props := i_props inst;
                     i_hooks := {| historyRef := Some history;
                                   reducerState := Some update;
                                   listening := true |} |} w
              else
                {| window_fetch := window_fetch w;
                   stubs := <[id := {| i_routes := i_routes inst;
                                       i_props := i_props inst;
                                       i_hooks := {| historyRef := Some history;
                                                     reducerState := reducerState (i_hooks inst);
                                                     listening := false |} |}]> (stubs w) |}
          end
      end
  | Unmount id =>
      (* the effect's cleanup unsubscribes; nothing touches [window.fetch] *)
      {| window_fetch := window_fetch w; stubs := delete id (stubs w) |}
  end.

Definition run (w : World) (evs : list Event) : World := foldl step w evs.

End Stub.

(** ** The context builder and the objects it creates

    [createManifest] and [createRouteModules] create their dictionaries
    with [{}] and fill them in place while [reduce] hands the same object
    from one call of the callback to the next. Here the objects live in a
    store next to the process-wide fetch slot, and the three functions are
    computations over that store. *)

Section Heap.
Context `{R : Router}.

(** Where a dictionary lives. *)
Definition ref : Type := nat.

Inductive HeapObject :=
| RouteManifestObject (o : js_object EntryRoute)
| RouteModulesObject (o : js_object RouteModule).

Record Store := {
  global_fetch : fetch_fn;
  objects : gmap ref HeapObject;
}.

Definition Heap (A : Type) : Type := Store → A * Store.

#[global] Instance Heap_ret : MRet Heap := λ A a s, (a, s).

#[global] Instance Heap_bind : MBind Heap := λ A B k m s,
  let '(a, s') := m s in k a s'.

(** An object literal: the new object gets a reference not in use. *)
Definition alloc (o : HeapObject) : Heap ref := λ s,
  let r := fresh (dom (objects s)) in
  (r, {| global_fetch := global_fetch s; objects := <[r := o]> (objects s) |}).

(** [manifest[key] = entry] *)
Definition assign_entry (manifest : ref) (key : string) (entry : EntryRoute)
  : Heap unit := λ s,
  match objects s !! manifest with
  | Some (RouteManifestObject o) =>
      ((), {| global_fetch := global_fetch s;
              objects := <[manifest := RouteManifestObject (js_assign key entry o)]>
                           (objects s) |})
  | _ => ((), s)
  end.

(** [modules[key] = module] *)
Definition assign_module (modules : ref) (key : string) (module : RouteModule)
  : Heap unit := λ s,
  match objects s !! modules with
  | Some (RouteModulesObject o) =>
      ((), {| global_fetch := global_fetch s;
              objects := <[modules := RouteModulesObject (js_assign key module o)]>
                           (objects s) |})
  | _ => ((), s)
  end.

(** [array.reduce(callback, initial)] with references as accumulators. *)
Fixpoint reduce {A} (callback : ref → A → Heap ref) (array : list A)
    (initial : ref) : Heap ref :=
  match array with
  | [] => mret initial
  | x :: array => accumulator ← callback initial x; reduce callback array accumulator
  end.

(** [AssetsManifest], its [routes] a reference. *)
Record AssetsManifestRef := {
  amr_routes : ref;
  amr_entry : ManifestEntry;
  amr_url : string;
  amr_version : string;
}.

(** [EntryContext], its dictionaries references. *)
Record EntryContextRef := {
  ecr_actionData : option RouteData;
  ecr_appState : AppState;
  ecr_matches : option (list RouteMatch);
  ecr_routeData : RouteData;
  ecr_manifest : AssetsManifestRef;
  ecr_routeModules : ref;
}.

Definition createManifest_heap (routes : list MockRouteObject)
  : Heap AssetsManifestRef :=
  initial ← alloc (RouteManifestObject js_empty);
  manifest ←
    reduce (λ manifest route,
              _ ← assign_entry manifest (path (route_base route))
                    (entry_route route);
              mret manifest)
           routes initial;
  mret {| amr_routes := manifest;
          amr_entry := {| me_imports := []; me_module := "" |};
          amr_url := "";
          amr_version := "" |}.

Definition createRouteModules_heap (routes : list MockRouteObject) : Heap ref :=
  initial ← alloc (RouteModulesObject js_empty);
  reduce (λ modules route,
            _ ← assign_module modules (path (route_base route))
                  (route_module route);
            mret modules)
         routes initial.

Definition createRemixContext_heap (routes : list MockRouteObject)
    (currentLocation : Location) (initialLoaderData : RouteData)
    (initialActionData : option RouteData) : Heap EntryContextRef :=
  let matches := matchRoutes routes (pathname currentLocation) in
  manifest ← createManifest_heap routes;
  routeModules ← createRouteModules_heap routes;
  mret {| ecr_actionData := initialActionData;
          ecr_appState :=
            {| trackBoundaries := true;
               trackCatchBoundaries := true;
               catchBoundaryRouteId := None;
               renderBoundaryRouteId := None;
               loaderBoundaryRouteId := None;
               error := None;
               catch := None |};
          ecr_matches := matches;
          ecr_routeData := initialLoaderData;
          ecr_manifest := manifest;
          ecr_routeModules := routeModules |}.

(** What a holder of the context finds behind its references. *)
Definition read_context (s : Store) (context : EntryContextRef)
  : option EntryContext :=
  match objects s !! amr_routes (ecr_manifest context),
        objects s !! ecr_routeModules context with
  | Some (RouteManifestObject manifest), Some (RouteModulesObject modules) =>
      Some {| actionData := ecr_actionData context;
              appState := ecr_appState context;
              matches := ecr_matches context;
              routeData := ecr_routeData context;
              manifest :=
                {| am_routes := manifest;
                   am_entry := amr_entry (ecr_manifest context);
                   am_url := amr_url (ecr_manifest context);
                   am_version := amr_version (ecr_manifest context) |};
              routeModules := modules |}
  | _, _ => None
  end.

End Heap.

(** ** What the specification says, as predicates *)

Section Spec.
Context `{R : Router}.

(** The last route of the array that declares path [p]. *)
Definition last_route_with_path (p : string) (routes : list MockRouteObject)
  : option MockRouteObject :=
  last (filter (λ route, path (route_base route) = p) routes).

(** "One manifest entry per Route Node of the tree, keyed by the node's
    path, including nodes that appear as children of other nodes." *)
Definition manifest_covers_tree (routes : list MockRouteObject) : Prop :=
  ∀ node, node ∈ tree_nodes routes →
    own_props (am_routes (createManifest routes)) !! path (route_base node)
    = Some (entry_route node).

(** "One module entry per Route Node of the tree, keyed by the node's path,
    including nodes that appear as children of other nodes." *)
Definition modules_cover_tree (routes : list MockRouteObject) : Prop :=
  ∀ node, node ∈ tree_nodes routes →
    own_props (createRouteModules routes) !! path (route_base node)
    = Some (route_module node).


(** The slot holds a replacement installed, directly or through further
    replacements, over [orig]. *)
Fixpoint installed_over (orig f : fetch_fn) : Prop :=
  match f with
  | NativeFetch _ => False
  | PatchedFetch _ originalFetch =>
      originalFetch = orig ∨ installed_over orig originalFetch
  end.

Definition is_replacement (f : fetch_fn) : bool :=
  match f with
  | NativeFetch _ => false
  | PatchedFetch _ _ => true
  end.

(** Number of replacements stacked in a slot content. *)
Fixpoint patch_depth (f : fetch_fn) : nat :=
  match f with
  | NativeFetch _ => 0
  | PatchedFetch _ originalFetch => S (patch_depth originalFetch)
  end.

End Spec.

(** ** Stacked interceptors and mounted stubs, as predicates *)

Section Lifecycle.
Context `{R : Router}.




(** What a listener of the history receives when the history is at [h]. *)
Definition update_of (h : MemoryHistory) : Update :=
  {| u_action := h_action h; u_location := h_location h |}.

(** A mounted stub as the component leaves it: its history exists and has a
    current location, its reducer state is the history's current
    {action, location} pair, it listens to the history, and a handler can
    be created from its routes. *)
Definition mounted_ok (inst : Instance) : Prop :=
  ∃ history location handler,
    historyRef (i_hooks inst) = Some history
    ∧ reducerState (i_hooks inst) = Some (update_of history)
    ∧ h_location history = Some location
    ∧ listening (i_hooks inst) = true
    ∧ createStaticHandler (i_routes inst) = inl handler.

Definition stubs_ok (w : World) : Prop :=
  ∀ id inst, stubs w !! id = Some inst → mounted_ok inst.

End Lifecycle.

(** ** A small concrete framework, for examples *)

Module Sample.

(** Functions and components are named by numbers, nodes by their text, a
    request by its URL. *)
Definition framework : Framework :=
  {| ReactNode := string;
     LoaderFunction := nat;
     ActionFunction := nat;
     LinksFunction := nat;
     MetaFunction := nat;
     Handle := string;
     CatchBoundaryComponent := nat;
     ErrorBoundaryComponent := nat;
     ShouldReloadFunction := nat;
     RouteData := list (string * string);
     RouteMatch := string;
     RequestInfo := string;
     RequestInit := list (string * string);
     Request := string;
     empty_RouteData := [];
     empty_RequestInit := [];
     new_Request := λ input _, inl input |}.

#[local] Existing Instance framework.

Definition base (p : string) : BaseMockRouteObject :=
  {| caseSensitive := None; path := p; element := None; loader := None;
     action := None; links := None; meta := None; handle := None;
     CatchBoundary := None; ErrorBoundary := None;
     unstable_shouldReload := None |}.

Definition leaf (p : string) : MockRouteObject :=
  MockNonIndexRoute (base p) false None.

(** [{ path: "/posts", children: [{ path: ":id", loader }] }] *)
Definition post : MockRouteObject :=
  MockNonIndexRoute
    {| caseSensitive := None; path := ":id"; element := Some "<Post />";
       loader := Some 1%nat; action := None; links := None; meta := None;
       handle := None; CatchBoundary := None; ErrorBoundary := None;
       unstable_shouldReload := None |}
    false None.

Definition posts : MockRouteObject :=
  MockNonIndexRoute (base "/posts") false (Some [post]).

Definition nested_routes : list MockRouteObject := [posts].

(** Two top-level routes for ["/"]: the second has a loader, an element
    and an error boundary, the first an action. *)
Definition home_old : MockRouteObject :=
  MockNonIndexRoute
    {| caseSensitive := None; path := "/"; element := Some "<Old />";
       loader := None; action := Some 7%nat; links := None; meta := None;
       handle := None; CatchBoundary := None; ErrorBoundary := None;
       unstable_shouldReload := None |}
    false None.

Definition home_new : MockRouteObject :=
  MockIndexRoute
    {| caseSensitive := None; path := "/"; element := Some "<New />";
       loader := Some 8%nat; action := None; links := Some 3%nat;
       meta := None; handle := Some "crumb"; CatchBoundary := None;
       ErrorBoundary := Some 9%nat; unstable_shouldReload := None |}.

Definition duplicate_routes : list MockRouteObject :=
  [home_old; leaf "/about"; home_new].

(** A handler that answers the paths of the top-level routes and throws a
    404 [Response] for every other request, except ["/boom"], for which it
    throws a 500, and ["/plain"], for which it throws a plain object. *)
Definition handler_for (routes : list MockRouteObject) : StaticHandler :=
  {| queryRoute := λ url : @Request framework,
       let request : string := url in
       if decide (request = "/boom") then
         Rejected (JsResponse {| status := 500; statusText := "Internal Server Error"; body := "" |})
       else if decide (request = "/plain") then
         Rejected (JsObject [("status", JsNumber 404)])
       else if decide (request ∈ ((path ∘ route_base) <$> routes)) then
         Resolved {| status := 200; statusText := "OK"; body := request |}
       else
         Rejected (JsResponse {| status := 404; statusText := "Not Found"; body := "" |}) |}.

Definition router : Router :=
  {| matchRoutes := λ routes pathname,
       match filter (λ p, p = pathname) ((path ∘ route_base) <$> routes) with
       | [] => None
       | ms => Some ms
       end;
     createStaticHandler := λ routes, inl (handler_for routes);
     entry_location := λ entry,
       match entry with
       | EntryPath to =>
           {| pathname := to; search := ""; hash := ""; state := JsNull;
              key := "default" |}
       | EntryLocation to => to
       end |}.

#[local] Existing Instance router.

(** The network as it was before any stub: every call resolves with 204. *)
Definition network : fetch_fn :=
  NativeFetch (λ _ _, Resolved {| status := 204; statusText := "No Content"; body := "" |}).

Definition no_options : RemixStubOptions :=
  {| initialEntries := None; initialLoaderData := None;
     initialActionData := None; initialIndex := None |}.

Definition root_location : Location :=
  {| pathname := "/"; search := ""; hash := ""; state := JsNull; key := "default" |}.

(** The history of a stub started at ["/"] after [push("/about")]. *)
Definition at_about : MemoryHistory :=
  {| h_entries :=
       [root_location;
        {| pathname := "/about"; search := ""; hash := ""; state := JsNull;
           key := "k1" |}];
     h_index := 1;
     h_action := Push |}.

(** A router like [router] whose [createStaticHandler] refuses an empty
    routes array. *)
Definition strict_router : Router :=
  {| matchRoutes := @matchRoutes framework router;
     createStaticHandler := λ routes,
       match routes with
       | [] => inr (JsError "Error" "You must provide a non-empty routes array")
       | _ => inl (handler_for routes)
       end;
     entry_location := @entry_location framework router |}.




(** The two trees differ in children only. *)
Definition flat_routes : list MockRouteObject := [leaf "/posts"].

End Sample.

(** ** Properties of the dictionaries built by [reduce] *)

Section Dictionaries.
Context {A V : Type}.
Variables (k : A → string) (v : A → V).

(** [l.reduce((m, x) => { m[k(x)] = v(x); return m }, m)] holds at [p] the
    value of the last [x] with [k(x) = p], and what [m] held otherwise. *)
Lemma reduce_assign_lookup (l : list A) (m : gmap string V) (p : string) :
  foldl (λ m x, <[k x := v x]> m) m l !! p =
  match last (filter (λ x, k x = p) l) with
  | Some x => Some (v x)
  | None => m !! p
  end.
Proof.
  revert m. induction l as [|a l IH]; intros m; [done|].
  cbn [foldl]. rewrite IH, filter_cons.
  destruct (decide (k a = p)) as [Hk|Hk].
  - rewrite last_cons. destruct (last _); [done|].
    subst p. by rewrite lookup_insert_eq.
  - destruct (last _); [done|]. by rewrite lookup_insert_ne.
Qed.

Lemma reduce_assign_dom (l : list A) (m : gmap string V) :
  dom (foldl (λ m x, <[k x := v x]> m) m l) = list_to_set (k <$> l) ∪ dom m.
Proof.
  revert m. induction l as [|a l IH]; intros m; cbn [foldl].
  - by rewrite fmap_nil, list_to_set_nil, (left_id_L ∅ (∪)).
  - rewrite IH, dom_insert_L, fmap_cons, list_to_set_cons.
    by rewrite (assoc_L (∪)), (comm_L (∪) (list_to_set _)).
Qed.

Lemma last_filter_app_cons (P : A → Prop) `{∀ x, Decision (P x)}
    (l1 l2 : list A) (x : A) :
  P x → (∀ y, y ∈ l2 → ¬ P y) → last (filter P (l1 ++ x :: l2)) = Some x.
Proof.
  intros Hx Hl2. rewrite filter_app, filter_cons_True by done.
  replace (filter P l2) with (@nil A).
  - by rewrite last_app.
  - symmetry. induction l2 as [|y l2 IH]; [done|].
    rewrite filter_cons_False by (apply Hl2; left).
    apply IH. intros z Hz. apply Hl2. by right.
Qed.

(** The own properties after the [reduce] are those a finite map gets from
    the elements whose key is not ["__proto__"]. *)
Lemma reduce_js_assign_own (l : list A) (o : js_object V) :
  own_props (foldl (λ o x, js_assign (k x) (v x) o) o l)
  = foldl (λ m x, <[k x := v x]> m) (own_props o)
      (filter (λ x, k x ≠ "__proto__") l).
Proof.
  revert o. induction l as [|a l IH]; intros o; [done|].
  cbn [foldl]. rewrite IH, filter_cons. unfold js_assign.
  destruct (decide (k a = "__proto__")) as [Hk|Hk].
  - by rewrite decide_False by auto.
  - by rewrite decide_True by auto.
Qed.

(** The prototype after the [reduce] is the value of the last element
    whose key is ["__proto__"]. *)
Lemma reduce_js_assign_prototype (l : list A) (o : js_object V) :
  prototype (foldl (λ o x, js_assign (k x) (v x) o) o l)
  = match last (filter (λ x, k x = "__proto__") l) with
    | Some x => Some (v x)
    | None => prototype o
    end.
Proof.
  revert o. induction l as [|a l IH]; intros o; [done|].
  cbn [foldl]. rewrite IH, filter_cons. unfold js_assign.
  destruct (decide (k a = "__proto__")) as [Hk|Hk].
  - rewrite last_cons. by destruct (last _).
  - done.
Qed.

Lemma filter_key_not_proto (l : list A) (p : string) :
  p ≠ "__proto__" →
  filter (λ x, k x = p) (filter (λ x, k x ≠ "__proto__") l)
  = filter (λ x, k x = p) l.
Proof.
  intros Hp. induction l as [|a l IH]; [done|].
  rewrite !(filter_cons _ a).
  destruct (decide (k a ≠ "__proto__")) as [Hk|Hk].
  - rewrite filter_cons. destruct (decide (k a = p)); by rewrite IH.
  - rewrite decide_False; [done|]. intros Hkp. apply Hk. by rewrite Hkp.
Qed.

Lemma filter_key_proto (l : list A) :
  filter (λ x, k x = "__proto__") (filter (λ x, k x ≠ "__proto__") l) = [].
Proof.
  induction l as [|a l IH]; [done|].
  rewrite (filter_cons _ a).
  destruct (decide (k a ≠ "__proto__")) as [Hk|Hk]; [|done].
  by rewrite filter_cons_False.
Qed.

Lemma filter_no_proto (l : list A) :
  "__proto__" ∉ (k <$> l) → filter (λ x, k x ≠ "__proto__") l = l.
Proof.
  intros Hl. induction l as [|a l IH]; [done|].
  rewrite fmap_cons, not_elem_of_cons in Hl. destruct Hl as [Hk Hl].
  rewrite filter_cons_True by auto. by rewrite IH.
Qed.

Lemma reduce_js_assign_lookup (l : list A) (o : js_object V) (p : string) :
  p ≠ "__proto__" →
  own_props (foldl (λ o x, js_assign (k x) (v x) o) o l) !! p
  = match last (filter (λ x, k x = p) l) with
    | Some x => Some (v x)
    | None => own_props o !! p
    end.
Proof.
  intros Hp.
  by rewrite reduce_js_assign_own, reduce_assign_lookup, filter_key_not_proto.
Qed.

Lemma reduce_js_assign_lookup_proto (l : list A) (o : js_object V) :
  own_props (foldl (λ o x, js_assign (k x) (v x) o) o l) !! "__proto__"
  = own_props o !! "__proto__".
Proof.
  by rewrite reduce_js_assign_own, reduce_assign_lookup, filter_key_proto.
Qed.

End Dictionaries.

(** ** The context builder *)

Section ContextBuilder.
Context `{R : Router}.

Lemma manifest_lookup (routes : list MockRouteObject) (p : string) :
  p ≠ "__proto__" →
  own_props (am_routes (createManifest routes)) !! p
  = entry_route <$> last_route_with_path p routes.
Proof.
  intros Hp. unfold createManifest, last_route_with_path. cbn [am_routes].
  rewrite (reduce_js_assign_lookup (λ r, path (route_base r)) entry_route)
    by done.
  by destruct (last _).
Qed.

Lemma modules_lookup (routes : list MockRouteObject) (p : string) :
  p ≠ "__proto__" →
  own_props (createRouteModules routes) !! p
  = route_module <$> last_route_with_path p routes.
Proof.
  intros Hp. unfold createRouteModules, last_route_with_path.
  rewrite (reduce_js_assign_lookup (λ r, path (route_base r)) route_module)
    by done.
  by destruct (last _).
Qed.

Lemma manifest_lookup_proto (routes : list MockRouteObject) :
  own_props (am_routes (createManifest routes)) !! "__proto__" = None.
Proof.
  unfold createManifest. cbn [am_routes].
  by rewrite (reduce_js_assign_lookup_proto (λ r, path (route_base r)) entry_route).
Qed.

Lemma modules_lookup_proto (routes : list MockRouteObject) :
  own_props (createRouteModules routes) !! "__proto__" = None.
Proof.
  unfold createRouteModules.
  by rewrite (reduce_js_assign_lookup_proto (λ r, path (route_base r)) route_module).
Qed.


Lemma last_route_with_path_Some (routes : list MockRouteObject) (p : string)
    (route : MockRouteObject) :
  last_route_with_path p routes = Some route →
  route ∈ routes ∧ path (route_base route) = p.
Proof.
  unfold last_route_with_path. intros Hlast.
  apply last_Some_elem_of, list_elem_of_filter in Hlast. by destruct Hlast.
Qed.

Lemma last_route_with_path_None (routes : list MockRouteObject) (p : string) :
  last_route_with_path p routes = None →
  p ∉ ((path ∘ route_base) <$> routes).
Proof.
  unfold last_route_with_path. intros Hlast Hin.
  apply list_elem_of_fmap in Hin as (route & -> & Hroute).
  assert (route ∈ filter (λ r, path (route_base r) = (path ∘ route_base) route)
                    routes) as Hfilter by by apply list_elem_of_filter.
  destruct (filter _ routes) as [|r l] using rev_ind.
  - by apply elem_of_nil in Hfilter.
  - by rewrite last_snoc in Hlast.
Qed.

(** C2 (as amended). The manifest is built from the top-level routes only:
    at every key [p] other than ["__proto__"] it holds the entry
    [{id: path, path, hasAction, hasLoader, module: "", hasCatchBoundary,
    hasErrorBoundary}] of the last top-level route declaring path [p], and
    nothing when no top-level route declares [p]; so such a key is present
    exactly when it is the path of a top-level route; the rest of the
    manifest is fixed. *)
Theorem createManifest_top_level (routes : list MockRouteObject) :
  (∀ p, p ≠ "__proto__" →
        own_props (am_routes (createManifest routes)) !! p
        = (λ route,
             {| er_id := path (route_base route);
                er_path := path (route_base route);
                er_hasAction := bool_decide (action (route_base route) ≠ None);
                er_hasLoader := bool_decide (loader (route_base route) ≠ None);
                er_module := "";
                er_hasCatchBoundary := bool_decide (CatchBoundary (route_base route) ≠ None);
                er_hasErrorBoundary := bool_decide (ErrorBoundary (route_base route) ≠ None) |})
          <$> last_route_with_path p routes)
  ∧ (∀ p, p ≠ "__proto__" →
          (p ∈ dom (own_props (am_routes (createManifest routes)))
           ↔ p ∈ ((path ∘ route_base) <$> routes)))
  ∧ am_entry (createManifest routes) = {| me_imports := []; me_module := "" |}
  ∧ am_url (createManifest routes) = ""
  ∧ am_version (createManifest routes) = "".
Proof.
  split; [|split; [|done]].
  - intros p Hp. rewrite manifest_lookup by done.
    destruct (last_route_with_path p routes) as [route|]; [|done].
    cbn. unfold entry_route. f_equal.
    by destruct (action _), (loader _), (CatchBoundary _), (ErrorBoundary _).
  - intros p Hp. rewrite elem_of_dom, manifest_lookup by done.
    destruct (last_route_with_path p routes) as [route|] eqn:Hlast; cbn.
    + apply last_route_with_path_Some in Hlast as [Hin <-].
      split; [intros _|by eauto]. by apply (list_elem_of_fmap_2 (path ∘ route_base)).
    + apply last_route_with_path_None in Hlast.
      split; [by intros [? ?]|done].
Qed.

(** C4 (as amended). The module map is built from the top-level routes
    only: at every key [p] other than ["__proto__"] it holds the module
    [{CatchBoundary, ErrorBoundary, default, handle, links, meta,
    unstable_shouldReload}] of the last top-level route declaring path [p],
    whose [default] renders a fragment around that route's element, and
    nothing when no top-level route declares [p]; so such a key is present
    exactly when it is the path of a top-level route. *)
Theorem createRouteModules_top_level (routes : list MockRouteObject) :
  (∀ p, p ≠ "__proto__" →
        own_props (createRouteModules routes) !! p
        = (λ route,
             {| rm_CatchBoundary := CatchBoundary (route_base route);
                rm_ErrorBoundary := ErrorBoundary (route_base route);
                rm_default := λ _, Fragment (element (route_base route));
                rm_handle := handle (route_base route);
                rm_links := links (route_base route);
                rm_meta := meta (route_base route);
                rm_unstable_shouldReload :=
                  unstable_shouldReload (route_base route) |})
          <$> last_route_with_path p routes)
  ∧ (∀ p, p ≠ "__proto__" →
          (p ∈ dom (own_props (createRouteModules routes))
           ↔ p ∈ ((path ∘ route_base) <$> routes))).
Proof.
  split.
  - intros p Hp. by rewrite modules_lookup.
  - intros p Hp. rewrite elem_of_dom, modules_lookup by done.
    destruct (last_route_with_path p routes) as [route|] eqn:Hlast; cbn.
    + apply last_route_with_path_Some in Hlast as [Hin <-].
      split; [intros _|by eauto]. by apply (list_elem_of_fmap_2 (path ∘ route_base)).
    + apply last_route_with_path_None in Hlast.
      split; [by intros [? ?]|done].
Qed.


(** C3. The matched-route list of the rendering context is the answer of
    [matchRoutes] for the routes and the pathname of the current location,
    as it is. *)
Theorem createRemixContext_matches (routes : list MockRouteObject)
    (currentLocation : Location) (initialLoaderData : RouteData)
    (initialActionData : option RouteData) :
  matches (createRemixContext routes currentLocation initialLoaderData
             initialActionData)
  = matchRoutes routes (pathname currentLocation).
Proof. reflexivity. Qed.

(** C6. Whatever the arguments, the [appState] of the rendering context has
    its three boundary route ids null and neither [error] nor [catch] set. *)
Theorem createRemixContext_appState (routes : list MockRouteObject)
    (currentLocation : Location) (initialLoaderData : RouteData)
    (initialActionData : option RouteData) :
  let appState :=
    appState (createRemixContext routes currentLocation initialLoaderData
                initialActionData) in
  appState
  = {| trackBoundaries := true; trackCatchBoundaries := true;
       catchBoundaryRouteId := None; renderBoundaryRouteId := None;
       loaderBoundaryRouteId := None; error := None; catch := None |}
  ∧ catchBoundaryRouteId appState = None
  ∧ renderBoundaryRouteId appState = None
  ∧ loaderBoundaryRouteId appState = None
  ∧ error appState = None
  ∧ catch appState = None.
Proof. by repeat split. Qed.

End ContextBuilder.

(** ** The stub component and the interceptor *)

Section Component.
Context `{R : Router}.

Lemma Store_eta (s : Store) :
  {| global_fetch := global_fetch s; objects := objects s |} = s.
Proof. by destruct s. Qed.

Lemma reduce_assign_entry_run (routes : list MockRouteObject) (manifest : ref)
    (o : js_object EntryRoute) (s : Store) :
  objects s !! manifest = Some (RouteManifestObject o) →
  reduce (λ manifest route,
            _ ← assign_entry manifest (path (route_base route))
                  (entry_route route);
            mret manifest)
         routes manifest s
  = (manifest,
     {| global_fetch := global_fetch s;
        objects :=
          <[manifest :=
              RouteManifestObject
                (foldl (λ o route,
                          js_assign (path (route_base route)) (entry_route route) o)
                       o routes)]> (objects s) |}).
Proof.
  revert o s. induction routes as [|route routes IH]; intros o s Hs.
  - cbn. by rewrite insert_id, Store_eta.
  - cbn [reduce foldl]. unfold mbind, Heap_bind, assign_entry at 1.
    rewrite Hs. unfold mret, Heap_ret.
    rewrite (IH (js_assign (path (route_base route)) (entry_route route) o));
      cbn; [|by rewrite lookup_insert_eq].
    by rewrite insert_insert_eq.
Qed.

Lemma reduce_assign_module_run (routes : list MockRouteObject) (modules : ref)
    (o : js_object RouteModule) (s : Store) :
  objects s !! modules = Some (RouteModulesObject o) →
  reduce (λ modules route,
            _ ← assign_module modules (path (route_base route))
                  (route_module route);
            mret modules)
         routes modules s
  = (modules,
     {| global_fetch := global_fetch s;
        objects :=
          <[modules :=
              RouteModulesObject
                (foldl (λ o route,
                          js_assign (path (route_base route)) (route_module route) o)
                       o routes)]> (objects s) |}).
Proof.
  revert o s. induction routes as [|route routes IH]; intros o s Hs.
  - cbn. by rewrite insert_id, Store_eta.
  - cbn [reduce foldl]. unfold mbind, Heap_bind, assign_module at 1.
    rewrite Hs. unfold mret, Heap_ret.
    rewrite (IH (js_assign (path (route_base route)) (route_module route) o));
      cbn; [|by rewrite lookup_insert_eq].
    by rewrite insert_insert_eq.
Qed.

Lemma createManifest_heap_run (routes : list MockRouteObject) (s : Store) :
  createManifest_heap routes s
  = ({| amr_routes := fresh (dom (objects s));
        amr_entry := am_entry (createManifest routes);
        amr_url := am_url (createManifest routes);
        amr_version := am_version (createManifest routes) |},
     {| global_fetch := global_fetch s;
        objects :=
          <[fresh (dom (objects s)) :=
              RouteManifestObject (am_routes (createManifest routes))]>
            (objects s) |}).
Proof.
  unfold createManifest_heap, mbind, Heap_bind, alloc.
  erewrite reduce_assign_entry_run by (cbn; apply lookup_insert_eq).
  cbn. by rewrite insert_insert_eq.
Qed.

Lemma createRouteModules_heap_run (routes : list MockRouteObject) (s : Store) :
  createRouteModules_heap routes s
  = (fresh (dom (objects s)),
     {| global_fetch := global_fetch s;
        objects :=
          <[fresh (dom (objects s)) :=
              RouteModulesObject (createRouteModules routes)]> (objects s) |}).
Proof.
  unfold createRouteModules_heap, mbind, Heap_bind, alloc.
  erewrite reduce_assign_module_run by (cbn; apply lookup_insert_eq).
  cbn. by rewrite insert_insert_eq.
Qed.

(** The store after a build: two more objects, the rest as it was. *)
Lemma createRemixContext_heap_run (routes : list MockRouteObject)
    (currentLocation : Location) (initialLoaderData : RouteData)
    (initialActionData : option RouteData) (s : Store) :
  let r1 := fresh (dom (objects s)) in
  let r2 := fresh (dom (<[r1 := RouteManifestObject
                                  (am_routes (createManifest routes))]>
                          (objects s))) in
  let built :=
    createRemixContext_heap routes currentLocation initialLoaderData
      initialActionData s in
  amr_routes (ecr_manifest built.1) = r1
  ∧ ecr_routeModules built.1 = r2
  ∧ (r1 ∉ dom (objects s)) ∧ (r2 ∉ dom (objects s)) ∧ r1 ≠ r2
  ∧ global_fetch built.2 = global_fetch s
  ∧ objects built.2
    = <[r2 := RouteModulesObject (createRouteModules routes)]>
        (<[r1 := RouteManifestObject (am_routes (createManifest routes))]>
           (objects s))
  ∧ read_context built.2 built.1
    = Some (createRemixContext routes currentLocation initialLoaderData
              initialActionData).
Proof.
  intros r1 r2 built.
  assert (r1 ∉ dom (objects s)) as Hr1 by apply is_fresh.
  assert (r2 ∉ dom (<[r1 := RouteManifestObject
                              (am_routes (createManifest routes))]>
                      (objects s))) as Hr2 by apply is_fresh.
  rewrite dom_insert_L, not_elem_of_union, not_elem_of_singleton in Hr2.
  destruct Hr2 as [Hne Hr2].
  unfold built, createRemixContext_heap, mbind, Heap_bind.
  rewrite createManifest_heap_run, createRouteModules_heap_run. cbn.
  fold r1. fold r2.
  repeat split; try done.
  unfold read_context. cbn.
  rewrite lookup_insert_ne by done.
  by rewrite !lookup_insert_eq.
Qed.

(** C7. Two builds from equal routes, location, loader data and action data
    give equal rendering contexts whatever the store each starts from, and
    the context is the one the arguments determine. A build leaves the
    fetch slot and every object of the store as they were: its dictionaries
    are objects that did not exist before. A second build, made after the
    first, gives the same context again in dictionaries of its own and
    leaves the first context as it was. *)
Theorem createRemixContext_stateless
    (routes1 routes2 : list MockRouteObject) (location1 location2 : Location)
    (loaderData1 loaderData2 : RouteData)
    (actionData1 actionData2 : option RouteData) (s1 s2 : Store) :
  routes1 = routes2 → location1 = location2 →
  loaderData1 = loaderData2 → actionData1 = actionData2 →
  let first :=
    createRemixContext_heap routes1 location1 loaderData1 actionData1 s1 in
  let other :=
    createRemixContext_heap routes2 location2 loaderData2 actionData2 s2 in
  let again :=
    createRemixContext_heap routes2 location2 loaderData2 actionData2 first.2 in
  read_context first.2 first.1 = read_context other.2 other.1
  ∧ read_context first.2 first.1
    = Some (createRemixContext routes1 location1 loaderData1 actionData1)
  ∧ global_fetch first.2 = global_fetch s1
  ∧ (∀ r o, objects s1 !! r = Some o → objects first.2 !! r = Some o)
  ∧ (amr_routes (ecr_manifest first.1) ∉ dom (objects s1))
  ∧ (ecr_routeModules first.1 ∉ dom (objects s1))
  ∧ read_context again.2 again.1 = read_context first.2 first.1
  ∧ read_context again.2 first.1 = read_context first.2 first.1
  ∧ amr_routes (ecr_manifest again.1) ≠ amr_routes (ecr_manifest first.1)
  ∧ ecr_routeModules again.1 ≠ ecr_routeModules first.1.
Proof.
  intros <- <- <- <- first other again.
  destruct (createRemixContext_heap_run routes1 location1 loaderData1
              actionData1 s1)
    as (Hm1 & Hr1 & Hfresh1 & Hfresh2 & Hne1 & Hfetch1 & Hobjects1 & Hread1).
  destruct (createRemixContext_heap_run routes1 location1 loaderData1
              actionData1 s2)
    as (_ & _ & _ & _ & _ & _ & _ & Hread2).
  destruct (createRemixContext_heap_run routes1 location1 loaderData1
              actionData1 first.2)
    as (Hm3 & Hr3 & Hfresh3 & Hfresh4 & Hne3 & Hfetch3 & Hobjects3 & Hread3).
  fold first in Hm1, Hr1, Hfetch1, Hobjects1, Hread1.
  fold other in Hread2. fold again in Hm3, Hr3, Hfetch3, Hobjects3, Hread3.
  assert (∀ r o, objects s1 !! r = Some o → objects first.2 !! r = Some o)
    as Hkept1.
  { intros r o Hr. rewrite Hobjects1.
    assert (r ∈ dom (objects s1)) as Hdom by (apply elem_of_dom; eauto).
    rewrite !lookup_insert_ne; [done|by intros <-..]. }
  assert (∀ r o, objects first.2 !! r = Some o → objects again.2 !! r = Some o)
    as Hkept3.
  { intros r o Hr. rewrite Hobjects3.
    assert (r ∈ dom (objects first.2)) as Hdom by (apply elem_of_dom; eauto).
    rewrite !lookup_insert_ne; [done|by intros <-..]. }
  assert (amr_routes (ecr_manifest first.1) ∈ dom (objects first.2)) as Hin1.
  { rewrite Hobjects1, Hm1, !dom_insert_L.
    by apply elem_of_union_r, elem_of_union_l, elem_of_singleton. }
  assert (ecr_routeModules first.1 ∈ dom (objects first.2)) as Hin2.
  { rewrite Hobjects1, Hr1, !dom_insert_L.
    by apply elem_of_union_l, elem_of_singleton. }
  split; [by rewrite Hread1, Hread2|]. split; [done|]. split; [done|].
  split; [done|]. split; [by rewrite Hm1|]. split; [by rewrite Hr1|].
  split; [by rewrite Hread3, Hread1|]. split.
  - rewrite Hread1. unfold read_context in *.
    destruct (objects first.2 !! amr_routes (ecr_manifest first.1))
      as [o1|] eqn:Ho1; [|done].
    destruct (objects first.2 !! ecr_routeModules first.1)
      as [o2|] eqn:Ho2; [|by destruct o1].
    by rewrite (Hkept3 _ _ Ho1), (Hkept3 _ _ Ho2).
  - split.
    + rewrite Hm3. intros Heq. apply Hfresh3. by rewrite Heq.
    + rewrite Hr3. intros Heq. apply Hfresh4. by rewrite Heq.
Qed.

(** C1. A call of the patched fetch for which the request can be built:
    a response of [queryRoute] is returned as it is; a thrown [Response]
    with status 404 or 405 makes the call the call of the captured original
    fetch with the same input and init; every other thrown value rejects
    the call with that value, a [Response] with status 500 among them. *)
Theorem patched_fetch_outcome (handler : StaticHandler)
    (originalFetch : fetch_fn) (input : RequestInfo)
    (init : option RequestInit) (request : Request) :
  new_Request input (default empty_RequestInit init) = inl request →
  let fetch := monkeyPatchFetch handler originalFetch in
  (∀ response, queryRoute handler request = Resolved response →
     call_fetch fetch input init = (Resolved response, []))
  ∧ (∀ r, queryRoute handler request = Rejected (JsResponse r) →
       status r = 404 ∨ status r = 405 →
       call_fetch fetch input init
       = call_fetch originalFetch input (Some (default empty_RequestInit init)))
  ∧ (∀ thrown, queryRoute handler request = Rejected thrown →
       (∀ r, thrown = JsResponse r → status r ≠ 404 ∧ status r ≠ 405) →
       call_fetch fetch input init = (Rejected thrown, []))
  ∧ (∀ r, queryRoute handler request = Rejected (JsResponse r) →
       status r = 500 →
       call_fetch fetch input init = (Rejected (JsResponse r), [])).
Proof.
  intros Hrequest fetch. unfold fetch, monkeyPatchFetch. cbn [call_fetch].
  rewrite Hrequest. repeat split.
  - by intros response ->.
  - intros r -> [Hs|Hs]; rewrite Hs; done.
  - intros thrown -> Hother. destruct thrown; try done.
    destruct (Hother r eq_refl) as [H404 H405].
    by rewrite !bool_decide_eq_false_2.
  - intros r -> Hs. by rewrite Hs.
Qed.

(** C9. When the value thrown by [queryRoute] is not a [Response], the
    patched fetch rejects with that value and nothing reaches the network,
    whatever the value carries; a call of the patched fetch reaches the
    network only after [queryRoute] threw a [Response] with status 404 or
    405. *)
Theorem passthrough_needs_Response (handler : StaticHandler)
    (originalFetch : fetch_fn) (input : RequestInfo)
    (init : option RequestInit) (request : Request) :
  new_Request input (default empty_RequestInit init) = inl request →
  let fetch := monkeyPatchFetch handler originalFetch in
  (∀ thrown, queryRoute handler request = Rejected thrown →
     instanceof_Response thrown = false →
     call_fetch fetch input init = (Rejected thrown, []))
  ∧ ((call_fetch fetch input init).2 ≠ [] →
     ∃ r, queryRoute handler request = Rejected (JsResponse r)
          ∧ (status r = 404 ∨ status r = 405)).
Proof.
  intros Hrequest fetch. unfold fetch, monkeyPatchFetch. cbn [call_fetch].
  rewrite Hrequest. split.
  - intros thrown -> Hinst. by destruct thrown.
  - destruct (queryRoute handler request) as [|thrown|]; try done.
    destruct thrown as [| | | | | | |r]; try done.
    destruct (decide (status r = 404)) as [H404|H404]; [by eauto|].
    destruct (decide (status r = 405)) as [H405|H405]; [by eauto|].
    by rewrite !bool_decide_eq_false_2.
Qed.

(** *** The [window.fetch] slot over time *)

Lemma installed_over_depth (orig f : fetch_fn) :
  installed_over orig f → (patch_depth orig < patch_depth f)%nat.
Proof.
  induction f as [|handler prev IH]; cbn; [done|].
  intros [->|Hprev]; [lia|]. specialize (IH Hprev). lia.
Qed.

Lemma installed_over_neq (orig f : fetch_fn) :
  installed_over orig f → f ≠ orig.
Proof. intros Hf ->. apply installed_over_depth in Hf. lia. Qed.

Lemma installed_over_replacement (orig f : fetch_fn) :
  installed_over orig f → is_replacement f = true.
Proof. by destruct f. Qed.

Lemma monkeyPatchFetch_installed (handler : StaticHandler) (orig : fetch_fn) :
  installed_over orig (monkeyPatchFetch handler orig).
Proof. by left. Qed.

Lemma monkeyPatchFetch_keeps (handler : StaticHandler) (orig f : fetch_fn) :
  installed_over orig f → installed_over orig (monkeyPatchFetch handler f).
Proof. by right. Qed.

(** A render leaves the slot alone or installs one more replacement. *)
Lemma RemixStub_slot (routes : list MockRouteObject) (props : RemixStubOptions)
    (hooks : Hooks) (slot : fetch_fn) :
  (RemixStub routes props hooks slot).1.2 = slot
  ∨ ∃ handler, (RemixStub routes props hooks slot).1.2
               = monkeyPatchFetch handler slot.
Proof.
  unfold RemixStub. destruct (u_location _); [|by left].
  destruct (createStaticHandler routes) as [handler|]; [|by left].
  right. by exists handler.
Qed.

Lemma render_instance_slot (id : nat) (inst : Instance) (w : World) :
  window_fetch (render_instance id inst w) = window_fetch w
  ∨ ∃ handler, window_fetch (render_instance id inst w)
               = monkeyPatchFetch handler (window_fetch w).
Proof.
  unfold render_instance.
  pose proof (RemixStub_slot (i_routes inst) (i_props inst) (i_hooks inst)
                (window_fetch w)) as Hslot.
  destruct (RemixStub _ _ _ _) as [[hooks slot] [entry|thrown]]; apply Hslot.
Qed.

Lemma step_slot (w : World) (ev : Event) :
  window_fetch (step w ev) = window_fetch w
  ∨ ∃ handler, window_fetch (step w ev)
               = monkeyPatchFetch handler (window_fetch w).
Proof.
  destruct ev as [id routes props|id props|id next|id]; cbn.
  - destruct (stubs w !! id); [by left|apply render_instance_slot].
  - destruct (stubs w !! id); [apply render_instance_slot|by left].
  - destruct (stubs w !! id) as [inst|]; [|by left].
    destruct (historyRef _); [|by left].
    destruct (listening _); [apply render_instance_slot|by left].
  - by left.
Qed.

Lemma step_installed (orig : fetch_fn) (w : World) (ev : Event) :
  installed_over orig (window_fetch w) →
  installed_over orig (window_fetch (step w ev)).
Proof.
  intros Hw. destruct (step_slot w ev) as [->|[handler ->]]; [done|].
  by apply monkeyPatchFetch_keeps.
Qed.

(** C8. Once a replacement has been installed over a captured fetch
    [orig], after any sequence of mounts, re-renders, navigations and
    unmounts the slot still holds a replacement installed over [orig]: it
    is a replacement and it is not [orig]. *)
Theorem original_fetch_never_restored (orig : fetch_fn) (w : World)
    (evs : list Event) :
  installed_over orig (window_fetch w) →
  installed_over orig (window_fetch (run w evs))
  ∧ is_replacement (window_fetch (run w evs)) = true
  ∧ window_fetch (run w evs) ≠ orig.
Proof.
  intros Hw.
  assert (installed_over orig (window_fetch (run w evs))) as Hrun.
  { unfold run. revert w Hw. induction evs as [|ev evs IH]; intros w Hw; [done|].
    cbn [foldl]. apply IH. by apply step_installed. }
  eauto using installed_over_replacement, installed_over_neq.
Qed.


End Component.

(** ** More about the dictionaries *)

Section MoreDictionaries.
Context {A V : Type}.
Variables (k : A → string) (v : A → V).

Lemma last_filter_Some (P : A → Prop) `{∀ x, Decision (P x)} (l : list A) (x : A) :
  last (filter P l) = Some x → P x ∧ x ∈ l.
Proof.
  intros Hlast. apply last_Some_elem_of in Hlast.
  by apply list_elem_of_filter in Hlast.
Qed.

Lemma reduce_assign_app (l1 l2 : list A) :
  foldl (λ m x, <[k x := v x]> m) (∅ : gmap string V) (l1 ++ l2)
  = foldl (λ m x, <[k x := v x]> m) ∅ l2
    ∪ foldl (λ m x, <[k x := v x]> m) ∅ l1.
Proof.
  apply map_eq. intros p.
  rewrite lookup_union, !reduce_assign_lookup, filter_app, last_app.
  rewrite lookup_empty.
  by destruct (last (filter _ l2)), (last (filter _ l1)).
Qed.

Lemma reduce_assign_size (l : list A) (m : gmap string V) :
  (size (foldl (λ m x, <[k x := v x]> m) m l) ≤ size m + length l)%nat.
Proof.
  revert m. induction l as [|a l IH]; intros m; cbn [foldl length]; [lia|].
  etrans; [apply IH|]. rewrite map_size_insert.
  destruct (m !! k a); cbn; lia.
Qed.

Lemma reduce_assign_NoDup (l : list A) (x : A) :
  NoDup (k <$> l) → x ∈ l →
  foldl (λ m x, <[k x := v x]> m) (∅ : gmap string V) l !! k x = Some (v x).
Proof.
  intros Hnodup Hx. rewrite reduce_assign_lookup.
  apply list_elem_of_split in Hx as (l1 & l2 & ->).
  rewrite (last_filter_app_cons (λ y, k y = k x)); [done..|].
  intros y Hy Hk. rewrite fmap_app, fmap_cons in Hnodup.
  apply NoDup_app in Hnodup as (_ & _ & Hnodup).
  apply NoDup_cons in Hnodup as [Hnotin _].
  apply Hnotin. rewrite <-Hk. by apply list_elem_of_fmap_2.
Qed.

End MoreDictionaries.

Section MoreContextBuilder.
Context `{R : Router}.

Lemma own_keys_agree (routes : list MockRouteObject) :
  dom (own_props (am_routes (createManifest routes)))
  = dom (own_props (createRouteModules routes)).
Proof.
  unfold createManifest, createRouteModules. cbn [am_routes].
  rewrite !reduce_js_assign_own.
  rewrite (reduce_assign_dom (λ r, path (route_base r)) entry_route).
  by rewrite (reduce_assign_dom (λ r, path (route_base r)) route_module).
Qed.

(** X1. The manifest and the module map always have the same keys: a path
    has a manifest entry exactly when it has a module. *)
Theorem manifest_modules_same_keys (routes : list MockRouteObject) :
  dom (own_props (am_routes (createManifest routes)))
  = dom (own_props (createRouteModules routes))
  ∧ ∀ p, is_Some (own_props (am_routes (createManifest routes)) !! p)
         ↔ is_Some (own_props (createRouteModules routes) !! p).
Proof.
  split; [apply own_keys_agree|].
  intros p. by rewrite <-!elem_of_dom, own_keys_agree.
Qed.

(** X2. Every manifest entry is filed under its own id: an entry found at
    key [p] has id [p], path [p] and an empty module reference, and is the
    entry of one of the top-level routes; the module found at [p] belongs
    to a top-level route declaring path [p]. *)
Theorem manifest_entry_keyed_by_id (routes : list MockRouteObject)
    (p : string) (entry : EntryRoute) :
  own_props (am_routes (createManifest routes)) !! p = Some entry →
  er_id entry = p ∧ er_path entry = p ∧ er_module entry = ""
  ∧ ∃ route, route ∈ routes ∧ path (route_base route) = p
             ∧ entry = entry_route route
             ∧ own_props (createRouteModules routes) !! p
               = Some (route_module route).
Proof.
  destruct (decide (p = "__proto__")) as [->|Hp].
  { by rewrite manifest_lookup_proto. }
  rewrite manifest_lookup, modules_lookup by done.
  destruct (last_route_with_path p routes) as [route|] eqn:Hlast; [|done].
  intros [= <-].
  apply last_route_with_path_Some in Hlast as [Hin Hpath].
  cbn. repeat split; [done..|]. by exists route.
Qed.

(** X3. When the top-level routes declare pairwise different paths, none
    of them ["__proto__"], every one of them has its own manifest entry and
    its own module, and both dictionaries have as many entries as there are
    top-level routes. *)
Theorem distinct_paths_all_present (routes : list MockRouteObject) :
  NoDup ((path ∘ route_base) <$> routes) →
  "__proto__" ∉ ((path ∘ route_base) <$> routes) →
  (∀ route, route ∈ routes →
     own_props (am_routes (createManifest routes)) !! path (route_base route)
     = Some (entry_route route)
     ∧ own_props (createRouteModules routes) !! path (route_base route)
       = Some (route_module route))
  ∧ size (own_props (am_routes (createManifest routes))) = length routes
  ∧ size (own_props (createRouteModules routes)) = length routes.
Proof.
  intros Hnodup Hproto.
  assert (own_props (am_routes (createManifest routes))
          = foldl (λ m r, <[path (route_base r) := entry_route r]> m) ∅ routes)
    as Hmanifest.
  { unfold createManifest. cbn [am_routes].
    by rewrite reduce_js_assign_own,
      (filter_no_proto (λ r, path (route_base r))). }
  assert (own_props (createRouteModules routes)
          = foldl (λ m r, <[path (route_base r) := route_module r]> m) ∅ routes)
    as Hmodules.
  { unfold createRouteModules.
    by rewrite reduce_js_assign_own,
      (filter_no_proto (λ r, path (route_base r))). }
  split.
  - intros route Hroute. rewrite Hmanifest, Hmodules. split.
    + by apply (reduce_assign_NoDup (λ r, path (route_base r)) entry_route).
    + by apply (reduce_assign_NoDup (λ r, path (route_base r)) route_module).
  - pose proof (own_keys_agree routes) as Hdom.
    rewrite <-(size_dom (own_props (createRouteModules routes))), <-Hdom.
    rewrite size_dom.
    assert (size (own_props (am_routes (createManifest routes)))
            = length routes) as Hsize; [|by split].
    rewrite Hmanifest, <-size_dom.
    rewrite (reduce_assign_dom (λ r, path (route_base r)) entry_route).
    rewrite dom_empty_L, (right_id_L ∅ (∪)).
    rewrite size_list_to_set by done. by rewrite length_fmap.
Qed.

(** X4. Building from a concatenation is building from the parts and
    merging, the entries of the second part taking precedence; so routes
    added at the end of the array can replace entries but never remove
    one. *)
Theorem dictionaries_of_app (routes1 routes2 : list MockRouteObject) :
  own_props (am_routes (createManifest (routes1 ++ routes2)))
  = own_props (am_routes (createManifest routes2))
    ∪ own_props (am_routes (createManifest routes1))
  ∧ own_props (createRouteModules (routes1 ++ routes2))
    = own_props (createRouteModules routes2)
      ∪ own_props (createRouteModules routes1)
  ∧ dom (own_props (am_routes (createManifest routes1)))
    ⊆ dom (own_props (am_routes (createManifest (routes1 ++ routes2)))).
Proof.
  assert (own_props (am_routes (createManifest (routes1 ++ routes2)))
          = own_props (am_routes (createManifest routes2))
            ∪ own_props (am_routes (createManifest routes1))) as Happ.
  { unfold createManifest. cbn [am_routes].
    rewrite !reduce_js_assign_own, filter_app.
    apply (reduce_assign_app (λ r, path (route_base r)) entry_route). }
  split; [done|]. split.
  - unfold createRouteModules. rewrite !reduce_js_assign_own, filter_app.
    apply (reduce_assign_app (λ r, path (route_base r)) route_module).
  - rewrite Happ, dom_union_L. apply union_subseteq_r.
Qed.

(** X5. Neither dictionary has more entries than there are top-level
    routes, however many nodes the tree has below them; for an empty routes
    array both are empty. *)
Theorem dictionaries_size (routes : list MockRouteObject) :
  (size (own_props (am_routes (createManifest routes))) ≤ length routes)%nat
  ∧ (size (own_props (createRouteModules routes)) ≤ length routes)%nat
  ∧ am_routes (createManifest []) = js_empty
  ∧ createRouteModules [] = js_empty.
Proof.
  pose proof (length_filter (λ r, path (route_base r) ≠ "__proto__") routes)
    as Hfilter.
  split; [|split; [|done]].
  - unfold createManifest. cbn [am_routes]. rewrite reduce_js_assign_own.
    pose proof (reduce_assign_size (λ r, path (route_base r)) entry_route
                  (filter (λ r, path (route_base r) ≠ "__proto__") routes) ∅)
      as Hsize.
    rewrite map_size_empty in Hsize. cbn [own_props js_empty]. lia.
  - unfold createRouteModules. rewrite reduce_js_assign_own.
    pose proof (reduce_assign_size (λ r, path (route_base r)) route_module
                  (filter (λ r, path (route_base r) ≠ "__proto__") routes) ∅)
      as Hsize.
    rewrite map_size_empty in Hsize. cbn [own_props js_empty]. lia.
Qed.

(** X6. The dictionaries read nothing of a route but its own fields: two
    routes arrays whose nodes agree on those fields, whatever their
    children and [index] flags, give the same manifest and the same
    modules. *)
Theorem dictionaries_ignore_children (routes1 routes2 : list MockRouteObject) :
  route_base <$> routes1 = route_base <$> routes2 →
  createManifest routes1 = createManifest routes2
  ∧ createRouteModules routes1 = createRouteModules routes2.
Proof.
  intros Hbase.
  assert (∀ {V} (f : BaseMockRouteObject → V) (l : list MockRouteObject),
            foldl (λ o r, js_assign (path (route_base r)) (f (route_base r)) o)
                  js_empty l
            = foldl (λ o b, js_assign (path b) (f b) o) js_empty
                (route_base <$> l)) as Hfold.
  { intros V f l. generalize (@js_empty V).
    induction l as [|r l IH]; intros o; [done|]. cbn. apply IH. }
  split.
  - unfold createManifest. f_equal.
    pose proof (Hfold _ (λ b, entry_route (MockIndexRoute b))) as Hf.
    etrans; [apply (Hf routes1)|]. rewrite Hbase. symmetry. apply (Hf routes2).
  - unfold createRouteModules.
    pose proof (Hfold _ (λ b, route_module (MockIndexRoute b))) as Hf.
    etrans; [apply (Hf routes1)|]. rewrite Hbase. symmetry. apply (Hf routes2).
Qed.

(** X17. A top-level route whose path is ["__proto__"] gets no entry of its
    own in either dictionary: the assignment makes its entry the prototype
    of the dictionary instead, and with several such routes the last one is
    the prototype; without such a route the prototype is left alone. *)
Theorem proto_path_sets_prototype (routes : list MockRouteObject) :
  own_props (am_routes (createManifest routes)) !! "__proto__" = None
  ∧ own_props (createRouteModules routes) !! "__proto__" = None
  ∧ prototype (am_routes (createManifest routes))
    = entry_route <$> last_route_with_path "__proto__" routes
  ∧ prototype (createRouteModules routes)
    = route_module <$> last_route_with_path "__proto__" routes.
Proof.
  split; [apply manifest_lookup_proto|]. split; [apply modules_lookup_proto|].
  unfold createManifest, createRouteModules, last_route_with_path.
  cbn [am_routes].
  rewrite (reduce_js_assign_prototype (λ r, path (route_base r)) entry_route).
  rewrite (reduce_js_assign_prototype (λ r, path (route_base r)) route_module).
  by destruct (last _).
Qed.

(** X7. The context is built from the pathname of the location alone: two
    locations with the same pathname, whatever their search, hash, state
    and key, give the same rendering context. *)
Theorem createRemixContext_pathname_only (routes : list MockRouteObject)
    (location1 location2 : Location) (loaderData : RouteData)
    (actionData : option RouteData) :
  pathname location1 = pathname location2 →
  createRemixContext routes location1 loaderData actionData
  = createRemixContext routes location2 loaderData actionData.
Proof. intros Hpath. unfold createRemixContext. by rewrite Hpath. Qed.

End MoreContextBuilder.

(** ** More about the interceptor *)

Section MoreInterceptor.
Context `{R : Router}.

Lemma call_fetch_log_Some (f : fetch_fn) (input : RequestInfo) (init : RequestInit) :
  (call_fetch f input (Some init)).2 = []
  ∨ (call_fetch f input (Some init)).2 = [(input, Some init)].
Proof.
  induction f as [impl|handler originalFetch IH]; cbn; [by right|].
  destruct (new_Request input init) as [request|]; [|by left].
  destruct (queryRoute handler request) as [|thrown|]; [by left| |by left].
  destruct thrown; try by left.
  by destruct (bool_decide _ || bool_decide _); [|left].
Qed.



(** X8. Whatever is stacked in the slot, a call of a replacement reaches
    the network at most once, and then with the input it was given and the
    init it was given ([{}] when the caller gave none). *)
Theorem replacement_forwards_arguments (f : fetch_fn) (input : RequestInfo)
    (init : option RequestInit) :
  is_replacement f = true →
  (call_fetch f input init).2 = []
  ∨ (call_fetch f input init).2
    = [(input, Some (default empty_RequestInit init))].
Proof.
  destruct f as [|handler originalFetch]; [done|]. intros _. cbn.
  destruct (new_Request _ _) as [request|]; [|by left].
  destruct (queryRoute handler request) as [|thrown|]; [by left| |by left].
  destruct thrown; try by left.
  destruct (bool_decide _ || bool_decide _); [|by left].
  apply call_fetch_log_Some.
Qed.



End MoreInterceptor.

(** ** More about the stub component *)

Section MoreComponent.
Context `{R : Router}.

Lemma render_instance_mounted (id : nat) (inst : Instance) (w : World)
    (history : MemoryHistory) (location : Location) (handler : StaticHandler) :
  historyRef (i_hooks inst) = Some history →
  reducerState (i_hooks inst) = Some (update_of history) →
  h_location history = Some location →
  createStaticHandler (i_routes inst) = inl handler →
  render_instance id inst w
  = {| window_fetch := monkeyPatchFetch handler (window_fetch w);
       stubs := <[id := {| i_routes := i_routes inst;
                           i_props := i_props inst;
                           i_hooks := {| historyRef := Some history;
                                         reducerState := Some (update_of history);
                                         listening := true |} |}]> (stubs w) |}.
Proof.
  intros Href Hstate Hlocation Hhandler.
  unfold render_instance, RemixStub.
  rewrite Href, Hstate. cbn. rewrite Hlocation, Hhandler. done.
Qed.

Lemma stubs_ok_insert (id : nat) (inst : Instance) (slot : fetch_fn) (w : World) :
  stubs_ok w → mounted_ok inst →
  stubs_ok {| window_fetch := slot; stubs := <[id := inst]> (stubs w) |}.
Proof.
  intros Hw Hinst id' inst'. cbn. rewrite lookup_insert.
  case_decide; [by intros [= <-]|apply Hw].
Qed.

Lemma stubs_ok_delete (id : nat) (slot : fetch_fn) (w : World) :
  stubs_ok w →
  stubs_ok {| window_fetch := slot; stubs := delete id (stubs w) |}.
Proof.
  intros Hw id' inst'. cbn. rewrite lookup_delete.
  case_decide; [done|apply Hw].
Qed.

Lemma render_instance_ok (id : nat) (inst : Instance) (w : World) :
  stubs_ok w →
  (historyRef (i_hooks inst) = None ∧ reducerState (i_hooks inst) = None)
  ∨ (∃ history, historyRef (i_hooks inst) = Some history
                ∧ reducerState (i_hooks inst) = Some (update_of history)) →
  stubs_ok (render_instance id inst w).
Proof.
  intros Hw Hhooks. unfold render_instance, RemixStub.
  destruct Hhooks as [[-> ->]|(history & -> & ->)]; cbn.
  - set (history := createMemoryHistory _).
    destruct (h_location history) as [location|] eqn:Hlocation;
      [|by apply stubs_ok_delete].
    destruct (createStaticHandler (i_routes inst)) as [handler|] eqn:Hhandler;
      [|by apply stubs_ok_delete].
    apply stubs_ok_insert; [done|].
    exists history, location, handler. cbn. unfold update_of.
    rewrite Hlocation. by repeat split.
  - destruct (h_location history) as [location|] eqn:Hlocation;
      [|by apply stubs_ok_delete].
    destruct (createStaticHandler (i_routes inst)) as [handler|] eqn:Hhandler;
      [|by apply stubs_ok_delete].
    apply stubs_ok_insert; [done|].
    exists history, location, handler. cbn. unfold update_of.
    rewrite Hlocation. by repeat split.
Qed.

Lemma step_ok (w : World) (ev : Event) : stubs_ok w → stubs_ok (step w ev).
Proof.
  intros Hw. destruct ev as [id routes props|id props|id next|id]; cbn.
  - destruct (stubs w !! id); [done|].
    apply render_instance_ok; [done|by left].
  - destruct (stubs w !! id) as [inst|] eqn:Hid; [|done].
    destruct (Hw id inst Hid) as (history & _ & _ & Href & Hstate & _).
    apply render_instance_ok; [done|]. right. by exists history.
  - destruct (stubs w !! id) as [inst|] eqn:Hid; [|done].
    destruct (Hw id inst Hid) as (history & _ & _ & Href & _ & _ & Hlisten & _).
    rewrite Href, Hlisten.
    apply render_instance_ok; [done|]. right. by exists next.
  - by apply stubs_ok_delete.
Qed.

Lemma run_ok (w : World) (evs : list Event) : stubs_ok w → stubs_ok (run w evs).
Proof.
  unfold run. revert w. induction evs as [|ev evs IH]; intros w Hw; [done|].
  cbn [foldl]. apply IH. by apply step_ok.
Qed.

Lemma no_stubs_ok (slot : fetch_fn) :
  stubs_ok {| window_fetch := slot; stubs := ∅ |}.
Proof. intros id inst. cbn. by rewrite lookup_empty. Qed.

(** X11. In a process that started without stubs, after any sequence of
    mounts, re-renders, navigations and unmounts every stub that is mounted
    has a history with a current location, holds as its state that
    history's current {action, location} pair, listens to the history, and
    was created from routes a handler can be made of. *)
Theorem mounted_stub_mirrors_history (slot : fetch_fn) (evs : list Event)
    (id : nat) (inst : Instance) :
  stubs (run {| window_fetch := slot; stubs := ∅ |} evs) !! id = Some inst →
  ∃ history location handler,
    historyRef (i_hooks inst) = Some history
    ∧ reducerState (i_hooks inst)
      = Some {| u_action := h_action history; u_location := Some location |}
    ∧ h_location history = Some location
    ∧ listening (i_hooks inst) = true
    ∧ createStaticHandler (i_routes inst) = inl handler.
Proof.
  intros Hid.
  destruct (run_ok _ evs (no_stubs_ok slot) id inst Hid)
    as (history & location & handler & Href & Hstate & Hlocation & Hrest).
  exists history, location, handler.
  split; [done|]. split; [|done].
  rewrite Hstate. unfold update_of. by rewrite Hlocation.
Qed.

(** X12. A re-render of a mounted stub, whatever the new props (other
    initial entries or another initial index included), keeps the history
    and the state of the stub as they are, and installs one more
    replacement, made from the stub's routes, over the content of the
    slot. *)
Theorem rerender_keeps_history (slot : fetch_fn) (evs : list Event)
    (id : nat) (inst : Instance) (props : RemixStubOptions) :
  let w := run {| window_fetch := slot; stubs := ∅ |} evs in
  stubs w !! id = Some inst →
  ∃ handler,
    createStaticHandler (i_routes inst) = inl handler
    ∧ step w (Rerender id props)
      = {| window_fetch := monkeyPatchFetch handler (window_fetch w);
           stubs := <[id := {| i_routes := i_routes inst;
                               i_props := props;
                               i_hooks := i_hooks inst |}]> (stubs w) |}.
Proof.
  intros w Hid.
  destruct (run_ok _ evs (no_stubs_ok slot) id inst Hid)
    as (history & location & handler & Href & Hstate & Hlocation & Hlisten
        & Hhandler).
  exists handler. split; [done|]. cbn. rewrite Hid.
  erewrite render_instance_mounted by done. cbn.
  destruct (i_hooks inst) as [ref state listen]; simplify_eq/=. done.
Qed.

(** X13. A navigation of a mounted stub to a history that has a current
    location renders the stub once: the stub's state becomes the new
    {action, location} pair, its history the new history, its props stay,
    and one more replacement is installed over the content of the slot. *)
Theorem navigate_renders_once (slot : fetch_fn) (evs : list Event)
    (id : nat) (inst : Instance) (next : MemoryHistory) (location : Location) :
  let w := run {| window_fetch := slot; stubs := ∅ |} evs in
  stubs w !! id = Some inst →
  h_location next = Some location →
  ∃ handler,
    createStaticHandler (i_routes inst) = inl handler
    ∧ step w (Navigate id next)
      = {| window_fetch := monkeyPatchFetch handler (window_fetch w);
           stubs :=
             <[id := {| i_routes := i_routes inst;
                        i_props := i_props inst;
                        i_hooks :=
                          {| historyRef := Some next;
                             reducerState :=
                               Some {| u_action := h_action next;
                                       u_location := Some location |};
                             listening := true |} |}]> (stubs w) |}
    ∧ patch_depth (window_fetch (step w (Navigate id next)))
      = S (patch_depth (window_fetch w)).
Proof.
  intros w Hid Hnext.
  destruct (run_ok _ evs (no_stubs_ok slot) id inst Hid)
    as (history & _ & handler & Href & _ & _ & Hlisten & Hhandler).
  exists handler. split; [done|].
  assert (step w (Navigate id next)
          = {| window_fetch := monkeyPatchFetch handler (window_fetch w);
               stubs :=
                 <[id := {| i_routes := i_routes inst;
                            i_props := i_props inst;
                            i_hooks :=
                              {| historyRef := Some next;
                                 reducerState :=
                                   Some {| u_action := h_action next;
                                           u_location := Some location |};
                                 listening := true |} |}]> (stubs w) |}) as ->.
  { cbn. rewrite Hid, Href, Hlisten.
    erewrite (render_instance_mounted _ _ _ next location handler); try done.
    cbn. unfold update_of. by rewrite Hnext. }
  done.
Qed.

(** X14. Replacements only pile up: along any sequence of events the number
    of replacements stacked in the slot never decreases, and grows by at
    most one per event. *)
Theorem replacements_pile_up (w : World) (evs : list Event) :
  (patch_depth (window_fetch w) ≤ patch_depth (window_fetch (run w evs))
   ≤ patch_depth (window_fetch w) + length evs)%nat.
Proof.
  unfold run. revert w. induction evs as [|ev evs IH]; intros w; cbn [foldl length].
  - lia.
  - specialize (IH (step w ev)).
    destruct (step_slot w ev) as [Hslot|[handler Hslot]];
      rewrite Hslot in IH; cbn in IH; lia.
Qed.

(** X15. Mounting a stub for whose routes no handler can be created throws
    what [createStaticHandler] threw and changes nothing: the slot keeps its
    content and the stub is not mounted. *)
Theorem mount_without_handler (w : World) (id : nat)
    (routes : list MockRouteObject) (props : RemixStubOptions)
    (thrown : js_value) :
  createStaticHandler routes = inr thrown →
  stubs w !! id = None →
  step w (Mount id routes props) = w
  ∧ ∀ slot hooks,
      (RemixStub routes props hooks slot).1.2 = slot
      ∧ ∃ thrown', (RemixStub routes props hooks slot).2 = inr thrown'.
Proof.
  intros Hhandler Hid.
  assert (∀ slot hooks,
            (RemixStub routes props hooks slot).1.2 = slot
            ∧ ∃ thrown', (RemixStub routes props hooks slot).2 = inr thrown')
    as Hrender.
  { intros slot hooks. unfold RemixStub.
    destruct (u_location _); rewrite ?Hhandler; cbn; eauto. }
  split; [|done]. cbn. rewrite Hid. unfold render_instance.
  destruct (Hrender (window_fetch w) fresh_hooks) as [Hslot [thrown' Hthrown]].
  destruct (RemixStub _ _ _ _) as [[hooks slot] result]. cbn in *. subst.
  rewrite delete_id by done. by destruct w.
Qed.

(** X16. A render that returns an element has installed a replacement made
    from the routes it rendered over the previous content of the slot; the
    element carries the context built for the location it shows, that
    location and action are the state kept by the stub, and the navigator is
    the history kept by the stub. *)
Theorem render_returns (routes : list MockRouteObject) (props : RemixStubOptions)
    (hooks hooks' : Hooks) (slot slot' : fetch_fn) (entry : RemixEntryProps) :
  RemixStub routes props hooks slot = (hooks', slot', inl entry) →
  (∃ handler, createStaticHandler routes = inl handler
              ∧ slot' = monkeyPatchFetch handler slot)
  ∧ re_context entry
    = createRemixContext routes (re_location entry)
        (default empty_RouteData (initialLoaderData props))
        (initialActionData props)
  ∧ historyRef hooks' = Some (re_navigator entry)
  ∧ reducerState hooks'
    = Some {| u_action := re_action entry;
              u_location := Some (re_location entry) |}
  ∧ (∀ history, historyRef hooks = Some history → re_navigator entry = history).
Proof.
  unfold RemixStub.
  destruct (u_location _) as [location|] eqn:Hlocation; [|done].
  destruct (createStaticHandler routes) as [handler|]; [|done].
  intros [= <- <- <-]. cbn.
  split; [by exists handler|]. split; [done|]. split; [done|]. split.
  - destruct (reducerState hooks) as [[act loc]|]; cbn in *; by rewrite Hlocation.
  - by intros history ->.
Qed.

End MoreComponent.

(** ** The properties at concrete inputs *)

#[local] Existing Instance Sample.framework.
#[local] Existing Instance Sample.router.

(** C2, as first stated, fails: [":id"], a child of ["/posts"], has no
    manifest entry. *)
Lemma manifest_misses_children :
  ¬ manifest_covers_tree Sample.nested_routes.
Proof.
  intros Hcovers.
  assert (Sample.post ∈ tree_nodes Sample.nested_routes) as Hnode
    by (right; left).
  specialize (Hcovers _ Hnode). rewrite manifest_lookup in Hcovers by done.
  vm_compute in Hcovers. discriminate Hcovers.
Qed.

(** C4, as first stated, fails: [":id"], a child of ["/posts"], has no
    module. *)
Lemma modules_miss_children :
  ¬ modules_cover_tree Sample.nested_routes.
Proof.
  intros Hcovers.
  assert (Sample.post ∈ tree_nodes Sample.nested_routes) as Hnode
    by (right; left).
  specialize (Hcovers _ Hnode). rewrite modules_lookup in Hcovers by done.
  vm_compute in Hcovers. discriminate Hcovers.
Qed.



(** The manifest of the nested tree has ["/posts"] and nothing for
    [":id"]. *)
Lemma createManifest_top_level_sample :
  own_props (am_routes (createManifest Sample.nested_routes)) !! "/posts"
  = Some {| er_id := "/posts"; er_path := "/posts"; er_hasAction := false;
            er_hasLoader := false; er_module := "";
            er_hasCatchBoundary := false; er_hasErrorBoundary := false |}
  ∧ own_props (am_routes (createManifest Sample.nested_routes)) !! ":id" = None
  ∧ "/posts" ∈ dom (own_props (am_routes (createManifest Sample.nested_routes))).
Proof.
  destruct (createManifest_top_level Sample.nested_routes) as (Hlookup & Hdom & _).
  split; [exact (Hlookup "/posts" ltac:(done))|].
  split; [exact (Hlookup ":id" ltac:(done))|].
  apply (Hdom "/posts" ltac:(done)). by left.
Defined.

(** The module map of the nested tree has ["/posts"] and nothing for
    [":id"]. *)
Lemma createRouteModules_top_level_sample :
  own_props (createRouteModules Sample.nested_routes) !! "/posts"
  = Some {| rm_CatchBoundary := None; rm_ErrorBoundary := None;
            rm_default := λ _, Fragment None;
            rm_handle := None; rm_links := None;
            rm_meta := None; rm_unstable_shouldReload := None |}
  ∧ own_props (createRouteModules Sample.nested_routes) !! ":id" = None
  ∧ "/posts" ∈ dom (own_props (createRouteModules Sample.nested_routes)).
Proof.
  destruct (createRouteModules_top_level Sample.nested_routes) as (Hlookup & Hdom).
  split; [exact (Hlookup "/posts" ltac:(done))|].
  split; [exact (Hlookup ":id" ltac:(done))|].
  apply (Hdom "/posts" ltac:(done)). by left.
Defined.

(** Two builds from the same arguments, one in an empty store and one in a
    store that holds a replaced fetch and an object, give the same
    context. *)
Lemma createRemixContext_stateless_sample :
  let s1 := {| global_fetch := Sample.network; objects := ∅ |} in
  let s2 :=
    {| global_fetch :=
         monkeyPatchFetch (Sample.handler_for Sample.nested_routes)
           Sample.network;
       objects := {[ 0%nat := RouteModulesObject js_empty ]} |} in
  let first :=
    createRemixContext_heap Sample.duplicate_routes Sample.root_location
      [] None s1 in
  let other :=
    createRemixContext_heap Sample.duplicate_routes Sample.root_location
      [] None s2 in
  read_context first.2 first.1 = read_context other.2 other.1
  ∧ read_context first.2 first.1
    = Some (createRemixContext Sample.duplicate_routes Sample.root_location
              [] None)
  ∧ objects other.2 !! 0%nat = Some (RouteModulesObject js_empty).
Proof.
  intros s1 s2 first other.
  destruct (createRemixContext_stateless
              Sample.duplicate_routes Sample.duplicate_routes
              Sample.root_location Sample.root_location [] [] None None
              s1 s2 eq_refl eq_refl eq_refl eq_refl)
    as (Hsame & Hcontext & _).
  split; [exact Hsame|]. split; [exact Hcontext|].
  destruct (createRemixContext_stateless
              Sample.duplicate_routes Sample.duplicate_routes
              Sample.root_location Sample.root_location [] [] None None
              s2 s1 eq_refl eq_refl eq_refl eq_refl)
    as (_ & _ & _ & Hkept & _).
  apply Hkept. reflexivity.
Defined.

(** A request for a path no mock route declares goes to the network; the
    500 of ["/boom"] comes back to the caller. *)
Lemma patched_fetch_outcome_sample :
  let handler := Sample.handler_for Sample.duplicate_routes in
  let fetch := monkeyPatchFetch handler Sample.network in
  call_fetch fetch "/about" None
  = (Resolved {| status := 200; statusText := "OK"; body := "/about" |}, [])
  ∧ call_fetch fetch "/elsewhere" None
    = (Resolved {| status := 204; statusText := "No Content"; body := "" |},
       [("/elsewhere", Some [])])
  ∧ call_fetch fetch "/boom" None
    = (Rejected (JsResponse {| status := 500;
                               statusText := "Internal Server Error";
                               body := "" |}), []).
Proof.
  intros handler fetch. split; [|split].
  - destruct (patched_fetch_outcome handler Sample.network "/about" None
                "/about" eq_refl) as (Hok & _).
    by apply Hok.
  - destruct (patched_fetch_outcome handler Sample.network "/elsewhere" None
                "/elsewhere" eq_refl) as (_ & Hpass & _).
    unfold fetch. erewrite Hpass; [reflexivity|reflexivity|by left].
  - destruct (patched_fetch_outcome handler Sample.network "/boom" None
                "/boom" eq_refl) as (_ & _ & _ & H500).
    by apply H500.
Defined.

(** A thrown plain object with [status: 404] is handed back to the caller. *)
Lemma passthrough_needs_Response_sample :
  let handler := Sample.handler_for Sample.duplicate_routes in
  let thrown := JsObject [("status", JsNumber 404)] in
  get_prop "status" thrown = Some (JsNumber 404)
  ∧ queryRoute handler "/plain" = Rejected thrown
  ∧ call_fetch (monkeyPatchFetch handler Sample.network) "/plain" None
    = (Rejected thrown, []).
Proof.
  intros handler thrown. split; [reflexivity|]. split; [reflexivity|].
  destruct (passthrough_needs_Response handler Sample.network "/plain" None
              "/plain" eq_refl) as (Hplain & _).
  by apply Hplain.
Defined.

(** A stub is mounted over an installed replacement, navigates and is
    unmounted: the network function is not back in the slot. *)
Lemma original_fetch_never_restored_sample :
  let w :=
    {| window_fetch :=
         monkeyPatchFetch (Sample.handler_for Sample.nested_routes) Sample.network;
       stubs := ∅ |} in
  let evs :=
    [Mount 0 Sample.duplicate_routes Sample.no_options;
     Navigate 0 Sample.at_about;
     Unmount 0] in
  installed_over Sample.network (window_fetch w)
  ∧ installed_over Sample.network (window_fetch (run w evs))
  ∧ is_replacement (window_fetch (run w evs)) = true
  ∧ window_fetch (run w evs) ≠ Sample.network.
Proof.
  intros w evs.
  assert (installed_over Sample.network (window_fetch w)) as Hw by (by left).
  split; [exact Hw|].
  exact (original_fetch_never_restored Sample.network w evs Hw).
Defined.

(** The same run, computed: the mount and the navigation each stacked one
    more replacement on the first, and the unmount removed none. *)
Example run_stacks_replacements :
  patch_depth
    (window_fetch
       (run {| window_fetch :=
                 monkeyPatchFetch (Sample.handler_for Sample.nested_routes)
                   Sample.network;
               stubs := ∅ |}
            [Mount 0 Sample.duplicate_routes Sample.no_options;
             Navigate 0 Sample.at_about;
             Unmount 0]))
  = 3%nat.
Proof. vm_compute. reflexivity. Qed.

(** With [initialEntries = ["/a", "/b"]] and no index the stub renders
    ["/b"]. *)
Example starts_at_last_entry :
  match
    (RemixStub Sample.duplicate_routes
       {| initialEntries := Some [EntryPath "/a"; EntryPath "/b"];
          initialLoaderData := None; initialActionData := None;
          initialIndex := None |}
       fresh_hooks Sample.network).2
  with
  | inl props => Some (re_location props)
  | inr _ => None
  end
  = Some {| pathname := "/b"; search := ""; hash := ""; state := JsNull;
            key := "default" |}.
Proof. vm_compute. reflexivity. Qed.

(** ** Further properties at concrete inputs *)

Lemma manifest_entry_keyed_by_id_sample :
  let entry := entry_route Sample.home_new in
  own_props (am_routes (createManifest Sample.duplicate_routes)) !! "/"
  = Some entry
  ∧ er_id entry = "/" ∧ er_path entry = "/" ∧ er_module entry = "".
Proof.
  intros entry.
  assert (own_props (am_routes (createManifest Sample.duplicate_routes)) !! "/"
          = Some entry)
    as Hentry by (rewrite manifest_lookup by done; reflexivity).
  split; [exact Hentry|].
  destruct (manifest_entry_keyed_by_id Sample.duplicate_routes "/" entry Hentry)
    as (Hid & Hpath & Hmodule & _).
  by repeat split.
Defined.

Lemma distinct_paths_all_present_sample :
  let routes := [Sample.leaf "/a"; Sample.posts; Sample.leaf "/b"] in
  NoDup ((path ∘ route_base) <$> routes)
  ∧ ("__proto__" ∉ ((path ∘ route_base) <$> routes))
  ∧ own_props (am_routes (createManifest routes)) !! "/posts"
    = Some (entry_route Sample.posts)
  ∧ size (own_props (am_routes (createManifest routes))) = 3%nat
  ∧ size (own_props (createRouteModules routes)) = 3%nat.
Proof.
  intros routes.
  assert (NoDup ((path ∘ route_base) <$> routes)) as Hnodup.
  { apply (bool_decide_unpack _). vm_compute. exact I. }
  assert ("__proto__" ∉ ((path ∘ route_base) <$> routes)) as Hproto.
  { apply (bool_decide_unpack _). vm_compute. exact I. }
  split; [exact Hnodup|]. split; [exact Hproto|].
  destruct (distinct_paths_all_present routes Hnodup Hproto)
    as (Hall & Hsize1 & Hsize2).
  split; [|by split].
  apply (Hall Sample.posts). right. left.
Defined.

Lemma dictionaries_ignore_children_sample :
  route_base <$> Sample.nested_routes = route_base <$> Sample.flat_routes
  ∧ createManifest Sample.nested_routes = createManifest Sample.flat_routes
  ∧ createRouteModules Sample.nested_routes
    = createRouteModules Sample.flat_routes.
Proof.
  split; [reflexivity|].
  exact (dictionaries_ignore_children Sample.nested_routes Sample.flat_routes
           eq_refl).
Defined.

Lemma createRemixContext_pathname_only_sample :
  let searched :=
    {| pathname := "/"; search := "?q=1"; hash := "#top";
       state := JsString "s"; key := "k2" |} in
  pathname Sample.root_location = pathname searched
  ∧ createRemixContext Sample.duplicate_routes Sample.root_location [] None
    = createRemixContext Sample.duplicate_routes searched [] None.
Proof.
  intros searched. split; [reflexivity|].
  exact (createRemixContext_pathname_only Sample.duplicate_routes
           Sample.root_location searched [] None eq_refl).
Defined.

Lemma replacement_forwards_arguments_sample :
  let fetch :=
    monkeyPatchFetch (Sample.handler_for Sample.nested_routes)
      (monkeyPatchFetch (Sample.handler_for Sample.duplicate_routes)
         Sample.network) in
  is_replacement fetch = true
  ∧ ((call_fetch fetch "/elsewhere" None).2 = []
     ∨ (call_fetch fetch "/elsewhere" None).2 = [("/elsewhere", Some [])]).
Proof.
  intros fetch. split; [reflexivity|].
  exact (replacement_forwards_arguments fetch "/elsewhere" None eq_refl).
Defined.



Lemma mounted_stub_mirrors_history_sample :
  let w :=
    run {| window_fetch := Sample.network; stubs := ∅ |}
      [Mount 0 Sample.duplicate_routes Sample.no_options;
       Navigate 0 Sample.at_about] in
  ∃ inst,
    stubs w !! 0%nat = Some inst
    ∧ ∃ history location handler,
        historyRef (i_hooks inst) = Some history
        ∧ reducerState (i_hooks inst)
          = Some {| u_action := h_action history; u_location := Some location |}
        ∧ h_location history = Some location
        ∧ listening (i_hooks inst) = true
        ∧ createStaticHandler (i_routes inst) = inl handler.
Proof.
  intros w. eexists. split; [vm_compute; reflexivity|].
  apply (mounted_stub_mirrors_history Sample.network
           [Mount 0 Sample.duplicate_routes Sample.no_options;
            Navigate 0 Sample.at_about] 0%nat).
  vm_compute. reflexivity.
Defined.

(** Re-rendering with other initial entries does not move the stub. *)
Lemma rerender_keeps_history_sample :
  let w :=
    run {| window_fetch := Sample.network; stubs := ∅ |}
      [Mount 0 Sample.duplicate_routes Sample.no_options] in
  let props :=
    {| initialEntries := Some [EntryPath "/about"];
       initialLoaderData := None; initialActionData := None;
       initialIndex := Some 0 |} in
  ∃ inst,
    stubs w !! 0%nat = Some inst
    ∧ ∃ handler,
        createStaticHandler (i_routes inst) = inl handler
        ∧ step w (Rerender 0 props)
          = {| window_fetch := monkeyPatchFetch handler (window_fetch w);
               stubs := <[0%nat := {| i_routes := i_routes inst;
                                      i_props := props;
                                      i_hooks := i_hooks inst |}]> (stubs w) |}.
Proof.
  intros w props. eexists. split; [vm_compute; reflexivity|].
  apply (rerender_keeps_history Sample.network
           [Mount 0 Sample.duplicate_routes Sample.no_options] 0%nat).
  vm_compute. reflexivity.
Defined.

Lemma navigate_renders_once_sample :
  let w :=
    run {| window_fetch := Sample.network; stubs := ∅ |}
      [Mount 0 Sample.duplicate_routes Sample.no_options] in
  ∃ inst location,
    stubs w !! 0%nat = Some inst
    ∧ h_location Sample.at_about = Some location
    ∧ pathname location = "/about"
    ∧ patch_depth (window_fetch (step w (Navigate 0 Sample.at_about))) = 2%nat.
Proof.
  intros w.
  destruct (stubs w !! 0%nat) as [inst|] eqn:Hinst;
    [|vm_compute in Hinst; discriminate Hinst].
  exists inst. eexists. split; [reflexivity|].
  split; [reflexivity|]. split; [reflexivity|].
  destruct (navigate_renders_once Sample.network
              [Mount 0 Sample.duplicate_routes Sample.no_options] 0%nat
              inst Sample.at_about _ Hinst eq_refl)
    as (handler & _ & _ & Hdepth).
  exact Hdepth.
Defined.

Lemma mount_without_handler_sample :
  let w := {| window_fetch := Sample.network; stubs := ∅ |} in
  @createStaticHandler _ Sample.strict_router []
  = inr (JsError "Error" "You must provide a non-empty routes array")
  ∧ @step _ Sample.strict_router w (Mount 0 [] Sample.no_options) = w.
Proof.
  intros w. split; [reflexivity|].
  destruct (@mount_without_handler _ Sample.strict_router w 0%nat []
              Sample.no_options _ eq_refl eq_refl) as [Hstep _].
  exact Hstep.
Defined.

Lemma render_returns_sample :
  ∃ hooks slot entry,
    RemixStub Sample.duplicate_routes Sample.no_options fresh_hooks
      Sample.network
    = (hooks, slot, inl entry)
    ∧ slot = monkeyPatchFetch (Sample.handler_for Sample.duplicate_routes)
               Sample.network
    ∧ historyRef hooks = Some (re_navigator entry)
    ∧ re_context entry
      = createRemixContext Sample.duplicate_routes (re_location entry) [] None.
Proof.
  eexists _, _, _. split; [vm_compute; reflexivity|].
  edestruct (render_returns Sample.duplicate_routes Sample.no_options
               fresh_hooks)
    as ((handler & Hhandler & Hslot) & Hcontext & Href & _);
    [vm_compute; reflexivity|].
  split; [|split; [exact Href|exact Hcontext]].
  rewrite Hslot. by injection Hhandler as <-.
Defined.
